(** * Jigsaw generation logic of [src/components/PuzzleBoard.tsx]

    A shallow embedding of [drawSide], [createPieceCanvas] and
    [createJigsawPieces], and of the [then] callback of [PuzzleBoard] that
    numbers the pieces.

    Modelling choices.
    - Grid sizes, image dimensions, loop counters and pixel partitions are
      natural numbers ([HTMLImageElement.width] is an unsigned integer).
    - The numbers handled by the rasterizer are JavaScript doubles; they are
      idealised as real numbers.  A division by zero yields a non-finite
      double (NaN or an infinity), kept apart as [NonFinite].
    - The piece count is an integer.  In [createJigsawPieces],
      [Math.sqrt] followed by [Number.isInteger] is modelled on integers
      ([Math_sqrt]): the root is an integer exactly for perfect squares.  On
      doubles this holds for counts below 2^52, and every length given to
      [Array.from] is then below 2^32, which it requires; the properties
      that depend on it are stated within that range.  The test as the
      doubles compute it is [validationRejects], on primitive floats.
    - The browser is a record [Browser]: the image decoder, the sequence of
      values returned by [Math.random], and for each canvas created whether a
      2D context can be obtained.
    - [canvas.width] and [canvas.height] are integer attributes of the DOM:
      a number assigned to them loses its fraction, and the source reads
      them back ([unsignedLong]).
    - The string returned by [canvas.toDataURL] is modelled by the canvas it
      encodes: its dimensions and the drawing operations performed on it. *)

From Stdlib Require Import String Bool List Arith ZArith QArith Reals Lia Lra.
From Stdlib Require Import Decimal DecimalString.
From Stdlib Require PrimFloat SpecFloat FloatOps Uint63.
Import ListNotations.

Set Implicit Arguments.
Close Scope Q_scope.
Close Scope R_scope.
Close Scope Z_scope.
Open Scope string_scope.
Open Scope list_scope.
Open Scope nat_scope.

(** ** Data model *)

(** [enum JigsawSide { KNOB, SOCKET }] *)
Inductive JigsawSide : Type := KNOB | SOCKET.

(** A value of type [JigsawSide | 'FLAT'] as it can occur at run time: an
    array read out of range yields [undefined]. *)
Inductive SideShape : Type :=
| Side (j : JigsawSide)
| FLAT
| undefined.

(** [interface PieceShape] *)
Record PieceShape : Type := mkPieceShape {
  top : SideShape;
  right : SideShape;
  bottom : SideShape;
  left : SideShape
}.

(** [v === JigsawSide.KNOB] for a value read from a joint array. *)
Definition is_KNOB (v : SideShape) : bool :=
  match v with
  | Side KNOB => true
  | _ => false
  end.

(** The logical inverse of a joint, as the specification calls it. *)
Definition inverse (j : JigsawSide) : JigsawSide :=
  match j with
  | KNOB => SOCKET
  | SOCKET => KNOB
  end.

(** ** Errors and completions *)

Definition Error : Type := string.

(** Result of evaluating an expression or calling a function that may throw. *)
Inductive Result (A : Type) : Type :=
| Ok (a : A)
| Throw (e : Error).
Arguments Ok {A} a.
Arguments Throw {A} e.

(** How one iteration of a loop inside [img.onload] ends: it falls through
    to the next iteration, it leaves the handler by [return reject(err)], or
    an exception escapes the handler. *)
Inductive Step (A : Type) : Type :=
| Next (a : A)
| ReturnReject (e : Error)
| Uncaught (e : Error).
Arguments Next {A} a.
Arguments ReturnReject {A} e.
Arguments Uncaught {A} e.

(** ** The piece rasterizer: numbers *)

(** A double, idealised: a real number, or a non-finite value. *)
Inductive number : Type :=
| Fin (r : R)
| NonFinite.

(** [a / b] on finite doubles: non-finite when the divisor is zero. *)
Definition div (a b : R) : number :=
  if Req_dec_T b 0%R then NonFinite else Fin (a / b)%R.

(** [a * b] with [b] finite. *)
Definition mul (a : number) (b : R) : number :=
  match a with
  | Fin r => Fin (r * b)%R
  | NonFinite => NonFinite
  end.

(** [a + b] with [a] finite. *)
Definition add (a : R) (b : number) : number :=
  match b with
  | Fin r => Fin (a + r)%R
  | NonFinite => NonFinite
  end.

Definition KNOB_RATIO : R := 0.2%R.

(** ** The canvas *)

(** The calls made on a [CanvasRenderingContext2D], in order. *)
Inductive CanvasOp : Type :=
| translate (x y : R)
| beginPath
| moveTo (x y : R)
| lineTo (x y : R)
| bezierCurveTo (cp1x cp1y cp2x cp2y : number) (x y : R)
| closePath
| save
| clip
| drawImage (sx sy sWidth sHeight dx dy dWidth dHeight : R)
| restore
| strokeStyle (s : string)
| lineWidth (w : R)
| stroke.

(** A canvas: the values of [canvas.width] and [canvas.height] and what
    was drawn on it.  It also stands for the data URL that [toDataURL]
    makes of it. *)
Record Canvas : Type := mkCanvas {
  width : R;
  height : R;
  ops : list CanvasOp
}.

Definition DataURL : Type := Canvas.

Section Rasterizer.
Local Open Scope R_scope.

(** [function drawSide(ctx, startX, startY, endX, endY, shape)]: the calls
    it makes on [ctx]. *)
Definition drawSide (startX startY endX endY : R) (shape : SideShape)
  : list CanvasOp :=
  match shape with
  | FLAT => [lineTo endX endY]
  | _ =>
    let dx := endX - startX in
    let dy := endY - startY in
    let normX := dy in
    let normY := - dx in
    let normLen := sqrt (normX * normX + normY * normY) in
    let unitNormX := div normX normLen in
    let unitNormY := div normY normLen in
    let knobSize := normLen * KNOB_RATIO in
    let curveOffset := knobSize * (if is_KNOB shape then 1 else -1) in
    let knobBaseRatio := 0.6 in
    let p1Ratio := (1 - knobBaseRatio) / 2 in
    let p2Ratio := 1 - p1Ratio in
    let p1x := startX + dx * p1Ratio in
    let p1y := startY + dy * p1Ratio in
    let p2x := startX + dx * p2Ratio in
    let p2y := startY + dy * p2Ratio in
    let cp1x := add p1x (mul unitNormX curveOffset) in
    let cp1y := add p1y (mul unitNormY curveOffset) in
    let cp2x := add p2x (mul unitNormX curveOffset) in
    let cp2y := add p2y (mul unitNormY curveOffset) in
    [lineTo p1x p1y; bezierCurveTo cp1x cp1y cp2x cp2y p2x p2y;
     lineTo endX endY]
  end.

(** The closed outline built by [createPieceCanvas] between [beginPath] and
    [closePath]. *)
Definition outline (pieceWidth pieceHeight : R) (shape : PieceShape)
  : list CanvasOp :=
  [moveTo 0 0]
  ++ drawSide 0 0 pieceWidth 0 (top shape)
  ++ drawSide pieceWidth 0 pieceWidth pieceHeight (right shape)
  ++ drawSide pieceWidth pieceHeight 0 pieceHeight (bottom shape)
  ++ drawSide 0 pieceHeight 0 0 (left shape).

(** The value read back from [canvas.width] or [canvas.height] after the
    number [x] was assigned to it.  The attribute is an [unsigned long]
    limited to non-negative numbers: the number is truncated towards zero
    and taken modulo 2^32, and a result above 2^31 - 1 is replaced by the
    default of the attribute (300 for the width, 150 for the height). *)
Definition unsignedLong (default : Z) (x : R) : R :=
  let truncated :=
    if Rlt_dec x 0 then (- Int_part (- x))%Z else Int_part x in
  let wrapped := (truncated mod 2 ^ 32)%Z in
  IZR (if (wrapped <=? 2147483647)%Z then wrapped else default).

(** What [createPieceCanvas] does with a canvas whose 2D context exists.
    [canvas_width] and [canvas_height] are [canvas.width] and
    [canvas.height] as they are read back for [drawImage]. *)
Definition paintPiece (sourceX sourceY pieceWidth pieceHeight : R)
  (shape : PieceShape) : Canvas :=
  let canvasPaddingX := pieceWidth * KNOB_RATIO in
  let canvasPaddingY := pieceHeight * KNOB_RATIO in
  let canvas_width := unsignedLong 300 (pieceWidth + 2 * canvasPaddingX) in
  let canvas_height := unsignedLong 150 (pieceHeight + 2 * canvasPaddingY) in
  mkCanvas canvas_width canvas_height
    ([translate canvasPaddingX canvasPaddingY; beginPath]
     ++ outline pieceWidth pieceHeight shape
     ++ [closePath; save; clip;
         drawImage (sourceX - canvasPaddingX) (sourceY - canvasPaddingY)
           canvas_width canvas_height
           (- canvasPaddingX) (- canvasPaddingY)
           canvas_width canvas_height;
         restore;
         strokeStyle "rgba(0, 0, 0, 0.6)";
         lineWidth 1.5;
         stroke]).

End Rasterizer.

(** ** The browser and the state of a run *)

(** [HTMLImageElement]: the dimensions of the decoded image. *)
Record HTMLImageElement : Type := mkImage {
  img_width : nat;
  img_height : nat
}.

(** What the host gives when a canvas is created and its context asked for. *)
Inductive Surface : Type :=
| Context2D                (* [getContext('2d')] returns a context *)
| NoContext                (* [getContext('2d')] returns [null] *)
| HostError (e : Error).   (* the host throws [e] inside [createPieceCanvas] *)

Record Browser : Type := mkBrowser {
  (** decoding of [img.src]; [None] when [img.onerror] fires *)
  decode : string -> option HTMLImageElement;
  (** the value returned by the [k]-th call of [Math.random] *)
  Math_random : nat -> Q;
  (** the surface obtained for the [k]-th canvas created *)
  getContext : nat -> Surface
}.

(** The arguments of one call of [createPieceCanvas]. *)
Record RasterCall : Type := mkRasterCall {
  sourceX : nat;
  sourceY : nat;
  pieceWidth : nat;
  pieceHeight : nat;
  shape : PieceShape
}.

(** State threaded through a run: how many times [Math.random] was called,
    how many canvases were created, and (ghost) the calls of
    [createPieceCanvas] made so far, oldest first. *)
Record World : Type := mkWorld {
  randomCalls : nat;
  canvasesCreated : nat;
  rasterCalls : list RasterCall
}.

Definition newWorld : World := mkWorld 0 0 [].

Definition M (A : Type) : Type := World -> A * World.

Definition ret {A : Type} (a : A) : M A := fun w => (a, w).

Definition bind {A B : Type} (m : M A) (k : A -> M B) : M B :=
  fun w => let (a, w') := m w in k a w'.

Declare Scope run_scope.
Delimit Scope run_scope with run.
Notation "x <- m ;; k" := (bind m (fun x => k))
  (at level 61, m at next level, right associativity) : run_scope.
Local Open Scope run_scope.

(** [Array.from({ length }, mapFn)] for a [mapFn] that ignores its
    arguments, for a length below 2^32 (a greater one makes [Array.from]
    throw a [RangeError]). *)
Fixpoint Array_from {A : Type} (length : nat) (mapFn : M A) : M (list A) :=
  match length with
  | 0 => ret []
  | S n => a <- mapFn ;; rest <- Array_from n mapFn ;; ret (a :: rest)
  end.

(** [for (let i = start; i < start + count; i++) body] with a loop state. *)
Fixpoint forLoop {S : Type} (i count : nat) (body : nat -> S -> M (Step S))
  (s : S) : M (Step S) :=
  match count with
  | 0 => ret (Next s)
  | Datatypes.S n =>
    r <- body i s ;;
    match r with
    | Next s' => forLoop (Datatypes.S i) n body s'
    | ReturnReject e => ret (ReturnReject e)
    | Uncaught e => ret (Uncaught e)
    end
  end.

(** [a[i][j]]: reading [j] of an undefined row throws a [TypeError]. *)
Definition index2 (a : list (list JigsawSide)) (i j : nat) : Result SideShape :=
  match nth_error a i with
  | None => Throw "TypeError"
  | Some row =>
    Ok (match nth_error row j with Some v => Side v | None => undefined end)
  end.

(** The state of the promise returned by [createJigsawPieces]. *)
Inductive Promise : Type :=
| Resolved (pieces : list DataURL)
| Rejected (e : Error)
| Pending.

(** [Math.sqrt(pieceCount)] when it is an integer, [None] when it is any
    other double (a fraction, or NaN for a negative count), for an integer
    [pieceCount] below 2^52: in that range the double nearest to the root
    is an integer only when the root is.  Above it the rounding of the
    root can produce an integer for a count that is not a square; see
    [validationRejects]. *)
Definition Math_sqrt (pieceCount : Z) : option nat :=
  if (pieceCount <? 0)%Z then None
  else
    let r := Z.sqrt pieceCount in
    if (r * r =? pieceCount)%Z then Some (Z.to_nat r) else None.

(** The same test as the doubles compute it. *)
Module Double.
Import PrimFloat SpecFloat FloatOps.

(** The double of an integer from 0 to 2^53, which represents it exactly. *)
Definition ofZ (n : Z) : float := of_uint63 (Uint63.of_Z n).

(** [Number.isInteger(x)]: [x] is finite and has no fractional part. *)
Definition Number_isInteger (x : float) : bool :=
  match Prim2SF x with
  | S754_zero _ => true
  | S754_finite _ m e => (0 <=? e)%Z || (Z.pos m mod 2 ^ (- e) =? 0)%Z
  | _ => false
  end.

(** [!Number.isInteger(gridSize)] with [gridSize = Math.sqrt(pieceCount)],
    the condition under which [img.onload] rejects with the validation
    error.  [Math.sqrt] is the correctly rounded square root of IEEE 754. *)
Definition validationRejects (pieceCount : float) : bool :=
  let gridSize := sqrt pieceCount in
  negb (Number_isInteger gridSize).


End Double.

Section Generation.
Variable env : Browser.

Definition random : M Q :=
  fun w => (Math_random env (randomCalls w),
            mkWorld (S (randomCalls w)) (canvasesCreated w) (rasterCalls w)).

(** [Math.random() > 0.5 ? JigsawSide.KNOB : JigsawSide.SOCKET] *)
Definition randomJoint : M JigsawSide :=
  r <- random ;; ret (if Qlt_le_dec (1 # 2) r then KNOB else SOCKET).

(** [function createPieceCanvas(sourceImage, sourceX, sourceY, pieceWidth,
    pieceHeight, shape)] *)
Definition createPieceCanvas (sourceImage : HTMLImageElement)
  (sourceX sourceY pieceWidth pieceHeight : R) (shape : PieceShape)
  : M (Result DataURL) :=
  fun w =>
    let w' := mkWorld (randomCalls w) (S (canvasesCreated w)) (rasterCalls w) in
    match getContext env (canvasesCreated w) with
    | HostError e => (Throw e, w')
    | NoContext => (Throw "Could not get canvas context.", w')
    | Context2D =>
      (Ok (paintPiece sourceX sourceY pieceWidth pieceHeight shape), w')
    end.

(** Ghost: record the arguments of a call of [createPieceCanvas]. *)
Definition note (c : RasterCall) : M unit :=
  fun w => (tt, mkWorld (randomCalls w) (canvasesCreated w) (rasterCalls w ++ [c])).

(** The object literal [shape] of the loop body.  [x === gridSize - 1] is
    written [x + 1 =? gridSize]. *)
Definition pieceShape (horizontalJoints verticalJoints : list (list JigsawSide))
  (gridSize y x : nat) : Result PieceShape :=
  match
    (if y =? 0 then Ok FLAT
     else match index2 verticalJoints (y - 1) x with
          | Ok v => Ok (Side (if is_KNOB v then SOCKET else KNOB))
          | Throw e => Throw e
          end)
  with
  | Throw e => Throw e
  | Ok top =>
    match (if x + 1 =? gridSize then Ok FLAT else index2 horizontalJoints y x) with
    | Throw e => Throw e
    | Ok right =>
      match (if y + 1 =? gridSize then Ok FLAT else index2 verticalJoints y x) with
      | Throw e => Throw e
      | Ok bottom =>
        match
          (if x =? 0 then Ok FLAT
           else match index2 horizontalJoints y (x - 1) with
                | Ok v => Ok (Side (if is_KNOB v then SOCKET else KNOB))
                | Throw e => Throw e
                end)
        with
        | Throw e => Throw e
        | Ok left => Ok (mkPieceShape top right bottom left)
        end
      end
    end
  end.

(** The two joint arrays, in the order they are filled. *)
Definition generateJoints (gridSize : nat)
  : M (list (list JigsawSide) * list (list JigsawSide)) :=
  horizontalJoints <- Array_from gridSize (Array_from (gridSize - 1) randomJoint) ;;
  verticalJoints <- Array_from (gridSize - 1) (Array_from gridSize randomJoint) ;;
  ret (horizontalJoints, verticalJoints).

Section Loops.
Variable img : HTMLImageElement.
Variable gridSize : nat.
Variables horizontalJoints verticalJoints : list (list JigsawSide).
Variables basePieceW basePieceH remainderW remainderH : nat.

(** Body of [for (let x = 0; x < gridSize; x++)]; the loop state is
    [(pieces, currentSourceX)]. *)
Definition bodyX (y pieceH currentSourceY x : nat) (s : list DataURL * nat)
  : M (Step (list DataURL * nat)) :=
  let (pieces, currentSourceX) := s in
  let pieceW := basePieceW + (if x <? remainderW then 1 else 0) in
  match pieceShape horizontalJoints verticalJoints gridSize y x with
  | Throw e => ret (Uncaught e)
  | Ok shape =>
    _ <- note (mkRasterCall currentSourceX currentSourceY pieceW pieceH shape) ;;
    r <- createPieceCanvas img (INR currentSourceX) (INR currentSourceY)
           (INR pieceW) (INR pieceH) shape ;;
    match r with
    | Ok pieceImage => ret (Next (pieces ++ [pieceImage], currentSourceX + pieceW))
    | Throw err => ret (ReturnReject err)
    end
  end.

(** Body of [for (let y = 0; y < gridSize; y++)]; the loop state is
    [(pieces, currentSourceY)]. *)
Definition bodyY (y : nat) (s : list DataURL * nat)
  : M (Step (list DataURL * nat)) :=
  let (pieces, currentSourceY) := s in
  let pieceH := basePieceH + (if y <? remainderH then 1 else 0) in
  r <- forLoop 0 gridSize (bodyX y pieceH currentSourceY) (pieces, 0) ;;
  match r with
  | Next (pieces', _) => ret (Next (pieces', currentSourceY + pieceH))
  | ReturnReject e => ret (ReturnReject e)
  | Uncaught e => ret (Uncaught e)
  end.

End Loops.

(** [img.onload].  For [gridSize = 0] the quotients and remainders are not
    finite doubles; no iteration reads them. *)
Definition onload (img : HTMLImageElement) (pieceCount : Z) : M Promise :=
  match Math_sqrt pieceCount with
  | None => ret (Rejected "Piece count must be a perfect square.")
  | Some gridSize =>
    joints <- generateJoints gridSize ;;
    let (horizontalJoints, verticalJoints) := joints in
    let basePieceW := img_width img / gridSize in
    let basePieceH := img_height img / gridSize in
    let remainderW := img_width img mod gridSize in
    let remainderH := img_height img mod gridSize in
    r <- forLoop 0 gridSize
           (bodyY img gridSize horizontalJoints verticalJoints
              basePieceW basePieceH remainderW remainderH)
           ([], 0) ;;
    match r with
    | Next (pieces, _) => ret (Resolved pieces)
    | ReturnReject e => ret (Rejected e)
    | Uncaught _ => ret Pending
    end
  end.

(** [createJigsawPieces(imageBase64, pieceCount)]: the promise once the
    image has loaded or failed to load, and the state of the run. *)
Definition createJigsawPieces (imageBase64 : string) (pieceCount : Z)
  : Promise * World :=
  match decode env ("data:image/png;base64," ++ imageBase64) with
  | None => (Rejected "Failed to load image for puzzle generation.", newWorld)
  | Some img => onload img pieceCount newWorld
  end.

End Generation.

(** [interface PuzzlePieceType] *)
Record PuzzlePieceType : Type := mkPuzzlePiece {
  id : nat;
  originalIndex : nat;
  imageUrl : DataURL
}.

(** [slicedImages.map((imageUrl, index) => ({ id: index, originalIndex:
    index, imageUrl }))], numbering from [index]. *)
Fixpoint initialPiecesFrom (index : nat) (slicedImages : list DataURL)
  : list PuzzlePieceType :=
  match slicedImages with
  | [] => []
  | imageUrl :: rest =>
    mkPuzzlePiece index index imageUrl :: initialPiecesFrom (S index) rest
  end.

Definition initialPieces (slicedImages : list DataURL) : list PuzzlePieceType :=
  initialPiecesFrom 0 slicedImages.

(** * The rest of the application *)

(** ** The menu of piece counts ([pieceOptions] of [PuzzleBoard.tsx], and
    the identical table of [PuzzleGeneratorForm.tsx]) *)

Record PieceOption : Type := mkOption {
  value : Z;
  label : string
}.

Definition pieceOptions : list PieceOption :=
  [ mkOption 4 "2x2 (4 Pieces)";
    mkOption 9 "3x3 (9 Pieces)";
    mkOption 16 "4x4 (16 Pieces)";
    mkOption 25 "5x5 (25 Pieces)";
    mkOption 36 "6x6 (36 Pieces)";
    mkOption 49 "7x7 (49 Pieces)";
    mkOption 64 "8x8 (64 Pieces)";
    mkOption 81 "9x9 (81 Pieces)" ].

(** ** The state of [PuzzleBoard] and its slicing effect *)

Module Board.

(** The three state variables of the component. *)
Record State : Type := mkState {
  currentPieceCount : Z;
  pieces : list PuzzlePieceType;
  isSlicing : bool
}.

(** The state at the first render, from the [pieceCount] prop. *)
Definition initial (pieceCount : Z) : State := mkState pieceCount [] true.

(** The effect on [imageBase64] and [currentPieceCount], run until the
    promise has settled: [setIsSlicing(true)], then [setPieces] in [then],
    nothing but [console.error] in [catch], and [setIsSlicing(false)] in
    [finally].  While the promise is pending only the first setter has
    run. *)
Definition effect (env : Browser) (imageBase64 : string) (st : State) : State :=
  match fst (createJigsawPieces env imageBase64 (currentPieceCount st)) with
  | Resolved slicedImages =>
    mkState (currentPieceCount st) (initialPieces slicedImages) false
  | Rejected _ => mkState (currentPieceCount st) (pieces st) false
  | Pending => mkState (currentPieceCount st) (pieces st) true
  end.

(** [onChange] of the select: [setCurrentPieceCount(Number(e.target.value))]
    for the value of one of the options. *)
Definition selectPieceCount (v : Z) (st : State) : State :=
  mkState v (pieces st) (isSlicing st).

(** What the component renders: the spinner alone, or the grid of pieces
    with [gridSize] columns ([None] when the root is not an integer) and the
    overlay spinner while slicing. *)
Inductive View : Type :=
| SpinnerView
| GridView (gridSize : option nat) (shown : list PuzzlePieceType) (overlay : bool).

Definition render (st : State) : View :=
  if isSlicing st && (length (pieces st) =? 0) then SpinnerView
  else GridView (Math_sqrt (currentPieceCount st)) (pieces st) (isSlicing st).

(** The states of a board mounted with the props [imageBase64] and
    [pieceCount]: the first render; the end of a run of the slicing effect;
    the choice of another entry of the menu (the select is disabled while
    slicing), with which the effect starts again. *)
Inductive reachable (env : Browser) (imageBase64 : string) (pieceCount : Z)
  : State -> Prop :=
| reachable_initial : reachable env imageBase64 pieceCount (initial pieceCount)
| reachable_effect st :
    reachable env imageBase64 pieceCount st ->
    reachable env imageBase64 pieceCount (effect env imageBase64 st)
| reachable_select st o :
    reachable env imageBase64 pieceCount st ->
    isSlicing st = false ->
    In o pieceOptions ->
    value o <> currentPieceCount st ->
    reachable env imageBase64 pieceCount
      (mkState (currentPieceCount (selectPieceCount (value o) st))
               (pieces (selectPieceCount (value o) st)) true).

End Board.

(** ** The image service ([generateImage]) *)

Module Gemini.

(** A value thrown: an instance of [Error] with its message, or anything
    else. *)
Inductive Thrown : Type :=
| ErrorObject (message : string)
| NonError.

Inductive Outcome (A : Type) : Type :=
| Returned (a : A)
| Threw (t : Thrown).
Arguments Returned {A} a.
Arguments Threw {A} t.

(** The parts of the response that [generateImage] reads; [None] stands
    for [undefined]. *)
Record Image : Type := mkImage { imageBytes : option string }.
Record GeneratedImage : Type := mkGenerated { image : option Image }.
Record Response : Type := mkResponse { generatedImages : option (list GeneratedImage) }.

Record Config : Type := mkConfig {
  numberOfImages : nat;
  outputMimeType : string;
  aspectRatio : string
}.

Record Request : Type := mkRequest {
  model : string;
  prompt : string;
  config : Config
}.

(** The client: what [ai.models.generateImages] answers to a request, and
    the message of the [TypeError] raised when a property of [undefined] is
    read. *)
Record Client : Type := mkClient {
  generateImages : Request -> Outcome Response;
  typeErrorMessage : string
}.

Definition noImages : Thrown :=
  ErrorObject "Image generation failed, no images were returned by the API.".

(** The body of the [try] block. *)
Definition attempt (ai : Client) (prompt : string) : Outcome string :=
  match generateImages ai
          (mkRequest "imagen-3.0-generate-002"
             ("A beautiful, vibrant, high-detail image of: " ++ prompt)
             (mkConfig 1 "image/png" "1:1")) with
  | Threw t => Threw t
  | Returned response =>
    match generatedImages response with
    | None => Threw noImages
    | Some [] => Threw noImages
    | Some (first :: _) =>
      match image first with
      | None => Threw (ErrorObject (typeErrorMessage ai))
      | Some im =>
        match imageBytes im with
        | None => Threw noImages
        | Some bytes => if (bytes =? "")%string then Threw noImages else Returned bytes
        end
      end
    end
  end.

(** [generateImage(prompt)]: the [try] block and its [catch]. *)
Definition generateImage (ai : Client) (prompt : string) : Outcome string :=
  match attempt ai prompt with
  | Returned bytes => Returned bytes
  | Threw (ErrorObject message) =>
    Threw (ErrorObject ("Failed to generate image: " ++ message))
  | Threw NonError =>
    Threw (ErrorObject "An unknown error occurred during image generation.")
  end.

End Gemini.

(** ** The application state ([App]) *)

Module App.

Inductive GameState : Type := setup | generating | playing | error'.

Record PuzzleData : Type := mkPuzzleData {
  imageBase64 : string;
  pieceCount : Z;
  prompt : string
}.

(** The three state variables of [App]; [None] stands for [null]. *)
Record State : Type := mkState {
  gameState : GameState;
  error : option string;
  puzzleData : option PuzzleData
}.

Definition initial : State := mkState setup None None.

(** [handleGenerate] up to its [await]. *)
Definition handleGenerate_begin (st : State) : State :=
  mkState generating None None.

(** [handleGenerate] after its [await], given how [generateImage] ended. *)
Definition handleGenerate_end (outcome : Gemini.Outcome string)
  (prompt : string) (pieceCount : Z) (st : State) : State :=
  match outcome with
  | Gemini.Returned base64Image =>
    mkState playing (error st) (Some (mkPuzzleData base64Image pieceCount prompt))
  | Gemini.Threw err =>
    let errorMessage :=
      match err with
      | Gemini.ErrorObject message => message
      | Gemini.NonError => "An unknown error occurred."
      end in
    mkState error' (Some errorMessage) (puzzleData st)
  end.

Definition handleGenerate (ai : Gemini.Client) (prompt : string) (pieceCount : Z)
  (st : State) : State :=
  handleGenerate_end (Gemini.generateImage ai prompt) prompt pieceCount
    (handleGenerate_begin st).

Definition handleReset (st : State) : State := mkState setup None None.

(** What [renderContent] shows. *)
Inductive View : Type :=
| FormView (isGenerating : bool)
| BoardView (data : PuzzleData)
| Fallback              (* [handleReset(); return null] *)
| ErrorView (message : option string).

Definition renderContent (st : State) : View :=
  match gameState st with
  | generating => FormView true
  | setup => FormView false
  | playing =>
    match puzzleData st with
    | Some data => BoardView data
    | None => Fallback
    end
  | error' => ErrorView (error st)
  end.

(** [handleSubmit] of the form, whose prompt has a non-blank trimmed
    text exactly when [nonBlank] holds: the request passed to [onSubmit],
    if any. *)
Definition handleSubmit (nonBlank isGenerating : bool) (prompt : string)
  (pieceCount : Z) : option (string * Z) :=
  if nonBlank && negb isGenerating then Some (prompt, pieceCount) else None.

(** The running application: the state of [App] and the request being
    awaited, if any. *)
Record Running : Type := mkRunning {
  state : State;
  awaited : option (string * Z)
}.

(** The events of the application.  The form is shown in the views
    [FormView], and its piece count is the value of an entry of the menu
    (16 at first, then the entry selected); the buttons calling
    [handleReset] are shown in the views [BoardView] and [ErrorView]. *)
Inductive step (ai : Gemini.Client) : Running -> Running -> Prop :=
| step_submit st g nonBlank prompt o :
    let pieceCount := value o in
    In o pieceOptions ->
    renderContent st = FormView g ->
    handleSubmit nonBlank g prompt pieceCount = Some (prompt, pieceCount) ->
    step ai (mkRunning st None)
            (mkRunning (handleGenerate_begin st) (Some (prompt, pieceCount)))
| step_settle st prompt pieceCount :
    step ai (mkRunning st (Some (prompt, pieceCount)))
            (mkRunning (handleGenerate_end (Gemini.generateImage ai prompt)
                          prompt pieceCount st) None)
| step_reset_board st data :
    renderContent st = BoardView data ->
    step ai (mkRunning st None) (mkRunning (handleReset st) None)
| step_reset_error st message :
    renderContent st = ErrorView message ->
    step ai (mkRunning st None) (mkRunning (handleReset st) None).

Inductive reachable (ai : Gemini.Client) : Running -> Prop :=
| reachable_initial : reachable ai (mkRunning initial None)
| reachable_step r r' : reachable ai r -> step ai r r' -> reachable ai r'.

End App.

(** ** The style of a piece image ([PuzzlePiece.tsx]) *)

Module PuzzlePiece.

Definition KNOB_RATIO : R := 0.2%R.

(** The numbers of [imageStyle]: width, height, left and top, in percent
    of the container. *)
Record Style : Type := mkStyle {
  width : R;
  height : R;
  left : R;
  top : R
}.

Definition imageStyle : Style :=
  mkStyle ((1 + 2 * KNOB_RATIO) * 100)%R ((1 + 2 * KNOB_RATIO) * 100)%R
          (- (KNOB_RATIO * 100))%R (- (KNOB_RATIO * 100))%R.

End PuzzlePiece.

(** * Notions used to state the properties *)

(** Fields of a world that the random source does not touch. *)
Definition sameRaster (w w' : World) : Prop :=
  canvasesCreated w' = canvasesCreated w /\ rasterCalls w' = rasterCalls w.

(** The dimensions of the two joint arrays for a grid of side [N]. *)
Definition jointsWellFormed (N : nat) (hj vj : list (list JigsawSide)) : Prop :=
  length hj = N /\ Forall (fun row => length row = N - 1) hj /\
  length vj = N - 1 /\ Forall (fun row => length row = N) vj.

(** The joint stored at [a[i][j]]; the default is never read in range. *)
Definition joint (a : list (list JigsawSide)) (i j : nat) : JigsawSide :=
  nth j (nth i a []) KNOB.

(** The shape of cell [(y, x)] read off the joint arrays. *)
Definition cellShape (hj vj : list (list JigsawSide)) (N y x : nat) : PieceShape :=
  mkPieceShape
    (if y =? 0 then FLAT else Side (inverse (joint vj (y - 1) x)))
    (if x + 1 =? N then FLAT else Side (joint hj y x))
    (if y + 1 =? N then FLAT else Side (joint vj y x))
    (if x =? 0 then FLAT else Side (inverse (joint hj y (x - 1)))).

(** The error with which [createPieceCanvas] fails on a surface, if any. *)
Definition surfaceError (s : Surface) : option Error :=
  match s with
  | Context2D => None
  | NoContext => Some "Could not get canvas context."
  | HostError e => Some e
  end.

(** The error of the first of the canvases [k, k + 1, ..., k + count - 1] on
    which [createPieceCanvas] fails. *)
Fixpoint firstFailure (env : Browser) (k count : nat) : option Error :=
  match count with
  | 0 => None
  | S n =>
    match surfaceError (getContext env k) with
    | Some e => Some e
    | None => firstFailure env (S k) n
    end
  end.

(** Size of the [i]-th part: the base size, plus one for the first
    [remainder] parts. *)
Definition span (base remainder i : nat) : nat :=
  base + (if i <? remainder then 1 else 0).

(** Sum of the sizes of the parts [start, ..., start + count - 1]. *)
Definition sumSpan (base remainder start count : nat) : nat :=
  list_sum (map (span base remainder) (seq start count)).

(** The piece image made from the arguments of a call. *)
Definition render (c : RasterCall) : DataURL :=
  paintPiece (INR (sourceX c)) (INR (sourceY c))
    (INR (pieceWidth c)) (INR (pieceHeight c)) (shape c).

(** A pixel of the source image lies in the source rectangle of a call. *)
Definition covers (c : RasterCall) (px py : nat) : Prop :=
  sourceX c <= px < sourceX c + pieceWidth c /\
  sourceY c <= py < sourceY c + pieceHeight c.

Section Cells.
Variables hj vj : list (list JigsawSide).
Variable N : nat.
Variables baseW baseH remW remH : nat.

(** The calls made by the inner loop from column [x] on, for [count]
    columns, starting at source abscissa [csx]. *)
Fixpoint rowCalls (y pieceH csy x count csx : nat) : list RasterCall :=
  match count with
  | 0 => []
  | S n =>
    mkRasterCall csx csy (span baseW remW x) pieceH (cellShape hj vj N y x)
    :: rowCalls y pieceH csy (S x) n (csx + span baseW remW x)
  end.

(** The calls made by the outer loop from row [y] on, for [count] rows,
    starting at source ordinate [csy]. *)
Fixpoint gridCalls (y count csy : nat) : list RasterCall :=
  match count with
  | 0 => []
  | S n =>
    rowCalls y (span baseH remH y) csy 0 N 0
    ++ gridCalls (S y) n (csy + span baseH remH y)
  end.

End Cells.

(** All the calls of a run on an image of [W] by [H] pixels. *)
Definition allCalls (hj vj : list (list JigsawSide)) (W H N : nat) : list RasterCall :=
  gridCalls hj vj N (W / N) (H / N) (W mod N) (H mod N) 0 N 0.

(** The call made for cell [(y, x)]. *)
Definition cellCall (hj vj : list (list JigsawSide)) (W H N y x : nat) : RasterCall :=
  mkRasterCall (sumSpan (W / N) (W mod N) 0 x) (sumSpan (H / N) (H mod N) 0 y)
    (span (W / N) (W mod N) x) (span (H / N) (H mod N) y) (cellShape hj vj N y x).

(** The joint arrays of a run. *)
Definition jointsOf (env : Browser) (N : nat)
  : list (list JigsawSide) * list (list JigsawSide) :=
  fst (generateJoints env N newWorld).

(** All the calls of a run of [env] on the decoded image [img]. *)
Definition runCalls (env : Browser) (img : HTMLImageElement) (N : nat)
  : list RasterCall :=
  allCalls (fst (jointsOf env N)) (snd (jointsOf env N))
    (img_width img) (img_height img) N.

(** A world after [k] more calls of [Math.random]. *)
Definition afterDraws (w : World) (k : nat) : World :=
  mkWorld (randomCalls w + k) (canvasesCreated w) (rasterCalls w).

(** The joint chosen from a value of [Math.random]. *)
Definition jointOfDraw (r : Q) : JigsawSide :=
  if Qlt_le_dec (1 # 2) r then KNOB else SOCKET.

(** The canvases created so far, as a run stands: as many as calls made;
    without error, each yielded a context; with error [e], the last one
    failed with [e] and the ones before yielded a context. *)
Definition canvasesSoFar (env : Browser) (err : option Error) (w : World) : Prop :=
  canvasesCreated w = length (rasterCalls w) /\
  match err with
  | None => forall j, j < canvasesCreated w -> getContext env j = Context2D
  | Some e =>
    exists k, canvasesCreated w = S k /\
      surfaceError (getContext env k) = Some e /\
      forall j, j < k -> getContext env j = Context2D
  end.

(** The same, for the way an iteration of a loop ends. *)
Definition canvasesAfter (S : Type) (env : Browser) (r : Step S) (w : World) : Prop :=
  match r with
  | Next _ => canvasesSoFar env None w
  | ReturnReject e => canvasesSoFar env (Some e) w
  | Uncaught _ => True
  end.

(** One coordinate of the point at parameter [t] of the cubic Bezier curve
    from [p0] to [p3] with control points [p1] and [p2], which is what
    [bezierCurveTo] draws for [t] from 0 to 1. *)
Definition bezierAt (p0 p1 p2 p3 t : R) : R :=
  ((1 - t) ^ 3 * p0 + 3 * (1 - t) ^ 2 * t * p1
   + 3 * (1 - t) * t ^ 2 * p2 + t ^ 3 * p3)%R.

(** The point [(x, y)] lies in the rectangle [xmin, xmax] by [ymin, ymax]. *)
Definition inBox (xmin xmax ymin ymax x y : R) : Prop :=
  (xmin <= x <= xmax /\ ymin <= y <= ymax)%R.

(** Every point of the path that the operations [ops] draw from the
    current point [(cx, cy)] lies in the rectangle: the point of a
    [moveTo], and all the points of the segment of a [lineTo] and of the
    curve of a [bezierCurveTo], whose arguments are finite. *)
Fixpoint pathWithin (xmin xmax ymin ymax cx cy : R) (ops : list CanvasOp)
  : Prop :=
  match ops with
  | [] => True
  | moveTo x y :: rest =>
    inBox xmin xmax ymin ymax x y /\ pathWithin xmin xmax ymin ymax x y rest
  | lineTo x y :: rest =>
    (forall t, 0 <= t <= 1 ->
       inBox xmin xmax ymin ymax (cx + t * (x - cx)) (cy + t * (y - cy)))%R /\
    pathWithin xmin xmax ymin ymax x y rest
  | bezierCurveTo (Fin c1x) (Fin c1y) (Fin c2x) (Fin c2y) x y :: rest =>
    (forall t, 0 <= t <= 1 ->
       inBox xmin xmax ymin ymax
         (bezierAt cx c1x c2x x t) (bezierAt cy c1y c2y y t))%R /\
    pathWithin xmin xmax ymin ymax x y rest
  | bezierCurveTo _ _ _ _ _ _ :: _ => False
  | _ :: rest => pathWithin xmin xmax ymin ymax cx cy rest
  end.

(** Decimal writing of a natural number. *)
Definition showNat (n : nat) : string :=
  NilZero.string_of_uint (Nat.to_uint n).

(** The label of the menu entry for a grid of side [N]. *)
Definition labelFor (N : nat) : string :=
  showNat N ++ "x" ++ showNat N ++ " (" ++ showNat (N * N) ++ " Pieces)".

(** The messages with which [generateImage] can fail. *)
Definition serviceMessage (m : string) : Prop :=
  String.prefix "Failed to generate image: " m = true \/
  m = "An unknown error occurred during image generation.".

(** What holds of the running application in each game state. *)
Definition appInvariant (ai : Gemini.Client) (r : App.Running) : Prop :=
  let st := App.state r in
  match App.gameState st with
  | App.setup =>
    App.error st = None /\ App.puzzleData st = None /\ App.awaited r = None
  | App.generating =>
    App.error st = None /\ App.puzzleData st = None /\
    exists prompt o, App.awaited r = Some (prompt, value o) /\ In o pieceOptions
  | App.playing =>
    App.error st = None /\ App.awaited r = None /\
    exists data,
      App.puzzleData st = Some data /\
      Gemini.generateImage ai (App.prompt data) = Gemini.Returned (App.imageBase64 data) /\
      App.imageBase64 data <> "" /\
      exists o, App.pieceCount data = value o /\ In o pieceOptions
  | App.error' =>
    App.puzzleData st = None /\ App.awaited r = None /\
    exists m, App.error st = Some m /\ serviceMessage m
  end.

(** What holds of a board whose piece counts come from the menu: the
    current count is an entry of the menu; the pieces shown are numbered
    from 0; there are none, or as many as some entry of the menu. *)
Definition boardInvariant (st : Board.State) : Prop :=
  (exists o, Board.currentPieceCount st = value o /\ In o pieceOptions) /\
  map id (Board.pieces st) = seq 0 (length (Board.pieces st)) /\
  (Board.pieces st = [] \/
   exists M, 2 <= M <= 9 /\ length (Board.pieces st) = M * M).

(** Where the abscissa [u] of an image [imageWidth] wide is shown, in a
    container [cell] wide, when the image box is [widthPct] percent of the
    container wide and starts [leftPct] percent of it from its left edge
    (the image is stretched to its box). *)
Definition shownAt (cell leftPct widthPct imageWidth u : R) : R :=
  (leftPct / 100 * cell + u / imageWidth * (widthPct / 100 * cell))%R.

(** ** Sample browsers *)

(** A browser that decodes every image to [W] by [H] pixels, whose
    [Math.random] alternates between 0.75 and 0.25, and whose canvases all
    yield a context. *)
Definition sampleBrowser (W H : nat) : Browser :=
  mkBrowser (fun _ => Some (mkImage W H))
            (fun k => if Nat.even k then (3 # 4)%Q else (1 # 4)%Q)
            (fun _ => Context2D).

(** The same browser, except that the third canvas yields no context. *)
Definition failingBrowser (W H : nat) : Browser :=
  mkBrowser (fun _ => Some (mkImage W H))
            (fun k => if Nat.even k then (3 # 4)%Q else (1 # 4)%Q)
            (fun k => if k =? 2 then NoContext else Context2D).

(** An image service that returns the bytes "iVBOR" for every prompt. *)
Definition sampleClient : Gemini.Client :=
  Gemini.mkClient
    (fun _ => Gemini.Returned
                (Gemini.mkResponse
                   (Some [Gemini.mkGenerated (Some (Gemini.mkImage (Some "iVBOR")))])))
    "Cannot read properties of undefined".

(** An image service that answers without any image. *)
Definition emptyClient : Gemini.Client :=
  Gemini.mkClient (fun _ => Gemini.Returned (Gemini.mkResponse (Some [])))
    "Cannot read properties of undefined".

(** Equality of two paths, coordinate by coordinate. *)
Ltac path_eq := repeat (f_equal; try lra).

(** * Properties *)

(** ** The topology *)

Lemma sameRaster_refl w : sameRaster w w.
Proof. split; reflexivity. Qed.

Lemma sameRaster_trans w1 w2 w3 :
  sameRaster w1 w2 -> sameRaster w2 w3 -> sameRaster w1 w3.
Proof. unfold sameRaster. intros [-> ->] [-> ->]. split; reflexivity. Qed.

Section ArrayFrom.
Variable A : Type.
Variable mapFn : M A.

Lemma Array_from_length n w : length (fst (Array_from n mapFn w)) = n.
Proof.
  revert w. induction n as [|n IH]; intros w; simpl; [reflexivity|].
  unfold bind. destruct (mapFn w) as [a w1].
  specialize (IH w1). destruct (Array_from n mapFn w1) as [rest w2].
  simpl in *. now rewrite IH.
Qed.

Lemma Array_from_Forall (P : A -> Prop) n w :
  (forall w0, P (fst (mapFn w0))) -> Forall P (fst (Array_from n mapFn w)).
Proof.
  intros HP. revert w. induction n as [|n IH]; intros w; simpl; [constructor|].
  unfold bind. pose proof (HP w) as Ha. destruct (mapFn w) as [a w1].
  specialize (IH w1). destruct (Array_from n mapFn w1) as [rest w2].
  simpl in *. constructor; assumption.
Qed.

Lemma Array_from_sameRaster n w :
  (forall w0, sameRaster w0 (snd (mapFn w0))) ->
  sameRaster w (snd (Array_from n mapFn w)).
Proof.
  intros HP. revert w. induction n as [|n IH]; intros w; simpl.
  - apply sameRaster_refl.
  - unfold bind. pose proof (HP w) as Ha. destruct (mapFn w) as [a w1].
    specialize (IH w1). destruct (Array_from n mapFn w1) as [rest w2].
    simpl in *. eapply sameRaster_trans; eassumption.
Qed.

End ArrayFrom.

Lemma randomJoint_sameRaster env w : sameRaster w (snd (randomJoint env w)).
Proof. split; reflexivity. Qed.

Lemma generateJoints_spec env N w :
  jointsWellFormed N (fst (fst (generateJoints env N w)))
                     (snd (fst (generateJoints env N w)))
  /\ sameRaster w (snd (generateJoints env N w)).
Proof.
  unfold generateJoints, bind.
  pose proof (Array_from_length (Array_from (N - 1) (randomJoint env)) N w) as L1.
  pose proof (Array_from_Forall (Array_from (N - 1) (randomJoint env))
                (fun row => length row = N - 1) N w
                (Array_from_length (randomJoint env) (N - 1))) as F1.
  pose proof (Array_from_sameRaster (Array_from (N - 1) (randomJoint env)) N w
                (fun w0 => Array_from_sameRaster (randomJoint env) (N - 1) w0
                             (randomJoint_sameRaster env))) as S1.
  destruct (Array_from N (Array_from (N - 1) (randomJoint env)) w) as [hj w1].
  pose proof (Array_from_length (Array_from N (randomJoint env)) (N - 1) w1) as L2.
  pose proof (Array_from_Forall (Array_from N (randomJoint env))
                (fun row => length row = N) (N - 1) w1
                (Array_from_length (randomJoint env) N)) as F2.
  pose proof (Array_from_sameRaster (Array_from N (randomJoint env)) (N - 1) w1
                (fun w0 => Array_from_sameRaster (randomJoint env) N w0
                             (randomJoint_sameRaster env))) as S2.
  destruct (Array_from (N - 1) (Array_from N (randomJoint env)) w1) as [vj w2].
  simpl in *. split; [repeat split; assumption|].
  eapply sameRaster_trans; eassumption.
Qed.

Lemma index2_in_range a i j rows cols :
  length a = rows -> Forall (fun row => length row = cols) a ->
  i < rows -> j < cols -> index2 a i j = Ok (Side (joint a i j)).
Proof.
  intros La Fa Hi Hj. unfold index2, joint.
  destruct (nth_error a i) as [row|] eqn:E.
  - assert (Hr : length row = cols).
    { rewrite Forall_forall in Fa. apply Fa. eapply nth_error_In; eassumption. }
    rewrite (nth_error_nth a i [] E).
    destruct (nth_error row j) as [v|] eqn:E2.
    + now rewrite (nth_error_nth row j KNOB E2).
    + apply nth_error_None in E2. lia.
  - apply nth_error_None in E. lia.
Qed.

Lemma is_KNOB_inverse j : (if is_KNOB (Side j) then SOCKET else KNOB) = inverse j.
Proof. now destruct j. Qed.

(** In range, the shape of a cell is defined and read off the joints. *)
Lemma pieceShape_in_range N hj vj y x :
  jointsWellFormed N hj vj -> y < N -> x < N ->
  pieceShape hj vj N y x = Ok (cellShape hj vj N y x).
Proof.
  intros (Lh & Fh & Lv & Fv) Hy Hx. unfold pieceShape, cellShape.
  destruct (Nat.eqb_spec y 0) as [Ey|Ey];
  destruct (Nat.eqb_spec (x + 1) N) as [Ex1|Ex1];
  destruct (Nat.eqb_spec (y + 1) N) as [Ey1|Ey1];
  destruct (Nat.eqb_spec x 0) as [Ex|Ex];
  repeat first
    [ rewrite (@index2_in_range vj (y - 1) x (N - 1) N) by (assumption || lia)
    | rewrite (@index2_in_range vj y x (N - 1) N) by (assumption || lia)
    | rewrite (@index2_in_range hj y x N (N - 1)) by (assumption || lia)
    | rewrite (@index2_in_range hj y (x - 1) N (N - 1)) by (assumption || lia)
    | rewrite is_KNOB_inverse ];
  reflexivity.
Qed.

(** C1. In a generated topology of any grid size, across every internal
    vertical edge the right side of a cell is a joint [j] and the left side
    of its right neighbour is the inverse of [j]; across every internal
    horizontal edge the bottom side of a cell is a joint [j] and the top side
    of the cell below is the inverse of [j].  Hence no KNOB abuts a KNOB and
    no SOCKET abuts a SOCKET. *)
Theorem interlocking_edges env N w hj vj w' y x :
  generateJoints env N w = ((hj, vj), w') ->
  2 <= N -> y < N -> x < N ->
  (x + 1 < N ->
   exists j a b,
     pieceShape hj vj N y x = Ok a /\ pieceShape hj vj N y (x + 1) = Ok b /\
     right a = Side j /\ left b = Side (inverse j) /\ right a <> left b) /\
  (y + 1 < N ->
   exists j a b,
     pieceShape hj vj N y x = Ok a /\ pieceShape hj vj N (y + 1) x = Ok b /\
     bottom a = Side j /\ top b = Side (inverse j) /\ bottom a <> top b).
Proof.
  intros G _ Hy Hx.
  pose proof (generateJoints_spec env N w) as [WF _]. rewrite G in WF. simpl in WF.
  split; intros Hn.
  - exists (joint hj y x). do 2 eexists.
    rewrite (pieceShape_in_range WF Hy Hx).
    rewrite (pieceShape_in_range WF Hy Hn). unfold cellShape. simpl.
    split; [reflexivity|]. split; [reflexivity|].
    destruct (Nat.eqb_spec (x + 1) N); [lia|].
    destruct (Nat.eqb_spec (x + 1) 0); [lia|].
    replace (x + 1 - 1) with x by lia.
    repeat split. destruct (joint hj y x); discriminate.
  - exists (joint vj y x). do 2 eexists.
    rewrite (pieceShape_in_range WF Hy Hx).
    rewrite (pieceShape_in_range WF Hn Hx). unfold cellShape. simpl.
    split; [reflexivity|]. split; [reflexivity|].
    destruct (Nat.eqb_spec (y + 1) N); [lia|].
    destruct (Nat.eqb_spec (y + 1) 0); [lia|].
    replace (y + 1 - 1) with y by lia.
    repeat split. destruct (joint vj y x); discriminate.
Qed.

(** C3. In a generated topology, a side of a cell's shape is FLAT if and
    only if it faces the border of the grid (top in row 0, bottom in row
    N-1, left in column 0, right in column N-1), and every other side is a
    KNOB or a SOCKET. *)
Theorem flat_iff_border env N w hj vj w' y x :
  generateJoints env N w = ((hj, vj), w') ->
  2 <= N -> y < N -> x < N ->
  exists s,
    pieceShape hj vj N y x = Ok s /\
    (top s = FLAT <-> y = 0) /\ (bottom s = FLAT <-> y = N - 1) /\
    (left s = FLAT <-> x = 0) /\ (right s = FLAT <-> x = N - 1) /\
    (y <> 0 -> top s = Side KNOB \/ top s = Side SOCKET) /\
    (y <> N - 1 -> bottom s = Side KNOB \/ bottom s = Side SOCKET) /\
    (x <> 0 -> left s = Side KNOB \/ left s = Side SOCKET) /\
    (x <> N - 1 -> right s = Side KNOB \/ right s = Side SOCKET).
Proof.
  intros G _ Hy Hx.
  pose proof (generateJoints_spec env N w) as [WF _]. rewrite G in WF. simpl in WF.
  exists (cellShape hj vj N y x). split; [now apply pieceShape_in_range|].
  unfold cellShape; simpl.
  destruct (Nat.eqb_spec y 0); destruct (Nat.eqb_spec (y + 1) N);
  destruct (Nat.eqb_spec x 0); destruct (Nat.eqb_spec (x + 1) N);
  repeat split; intros; try lia; try discriminate; try congruence;
  match goal with
  | |- Side ?j = _ \/ _ => destruct j; [left|right]; reflexivity
  end.
Qed.

(** ** The two loops *)

Lemma firstFailure_app env k a b :
  firstFailure env k (a + b) =
  match firstFailure env k a with
  | Some e => Some e
  | None => firstFailure env (k + a) b
  end.
Proof.
  revert k. induction a as [|a IH]; intros k; simpl.
  - now rewrite Nat.add_0_r.
  - destruct (surfaceError (getContext env k)); [reflexivity|].
    rewrite IH. now rewrite Nat.add_succ_r.
Qed.

Lemma firstn_app_long (A : Type) (l1 l2 : list A) n m :
  length l1 = n -> firstn (n + m) (l1 ++ l2) = l1 ++ firstn m l2.
Proof. intros <-. apply firstn_app_2. Qed.

Lemma firstn_app_short (A : Type) (l1 l2 : list A) n m :
  length l1 = n -> m <= n -> firstn m (l1 ++ l2) = firstn m l1.
Proof.
  intros <- Hm. rewrite firstn_app.
  replace (m - length l1) with 0 by lia. now rewrite firstn_O, app_nil_r.
Qed.

Section LoopFacts.
Variable env : Browser.
Variable img : HTMLImageElement.
Variable N : nat.
Variables hj vj : list (list JigsawSide).
Variables baseW baseH remW remH : nat.
Hypothesis WF : jointsWellFormed N hj vj.

Lemma bodyX_step y pieceH csy x pieces csx w :
  y < N -> x < N ->
  bodyX env img N hj vj baseW remW y pieceH csy x (pieces, csx) w =
  let c := mkRasterCall csx csy (span baseW remW x) pieceH (cellShape hj vj N y x) in
  let w' := mkWorld (randomCalls w) (S (canvasesCreated w)) (rasterCalls w ++ [c]) in
  match surfaceError (getContext env (canvasesCreated w)) with
  | None => (Next (pieces ++ [render c], csx + span baseW remW x), w')
  | Some e => (ReturnReject e, w')
  end.
Proof.
  intros Hy Hx. unfold bodyX.
  rewrite (pieceShape_in_range WF Hy Hx).
  unfold bind, note, createPieceCanvas, ret, span, render. simpl.
  destruct (getContext env (canvasesCreated w)); reflexivity.
Qed.

Lemma forX_spec y pieceH csy count : forall x pieces csx w,
  y < N -> x + count <= N ->
  match firstFailure env (canvasesCreated w) count with
  | None =>
    forLoop x count (bodyX env img N hj vj baseW remW y pieceH csy) (pieces, csx) w =
    (Next (pieces ++ map render (rowCalls hj vj N baseW remW y pieceH csy x count csx),
           csx + sumSpan baseW remW x count),
     mkWorld (randomCalls w) (canvasesCreated w + count)
       (rasterCalls w ++ rowCalls hj vj N baseW remW y pieceH csy x count csx))
  | Some e =>
    let r := forLoop x count (bodyX env img N hj vj baseW remW y pieceH csy)
               (pieces, csx) w in
    fst r = ReturnReject e /\
    exists m, m <= count /\
      rasterCalls (snd r) =
      rasterCalls w ++ firstn m (rowCalls hj vj N baseW remW y pieceH csy x count csx)
  end.
Proof.
  induction count as [|count IH]; intros x pieces csx w Hy Hx.
  - simpl. unfold ret, sumSpan. simpl.
    rewrite !app_nil_r, !Nat.add_0_r. now destruct w.
  - cbn [firstFailure forLoop rowCalls]. unfold bind.
    rewrite bodyX_step by lia. cbv zeta.
    destruct (surfaceError (getContext env (canvasesCreated w))) as [e|].
    { split; [reflexivity|]. exists 1. split; [lia|reflexivity]. }
    match goal with
    | |- context [forLoop (S x) count _ (?p, ?c) ?w1] =>
      specialize (IH (S x) p c w1 Hy ltac:(lia))
    end.
    cbn [canvasesCreated randomCalls rasterCalls] in IH.
    destruct (firstFailure env (S (canvasesCreated w)) count) as [e|].
    + cbv zeta in IH. destruct IH as [IH1 (m & Hm & IH2)].
      split; [exact IH1|]. exists (S m). split; [lia|].
      rewrite IH2, <- app_assoc. reflexivity.
    + rewrite IH. unfold sumSpan. cbn [seq map list_sum].
      rewrite <- !app_assoc. cbn [app].
      f_equal; [f_equal | f_equal; lia].
      f_equal. simpl. lia.
Qed.

Lemma rowCalls_length y pieceH csy count : forall x csx,
  length (rowCalls hj vj N baseW remW y pieceH csy x count csx) = count.
Proof. induction count; intros; simpl; [reflexivity|now rewrite IHcount]. Qed.

Lemma bodyY_step y pieces csy w :
  y < N ->
  let row := rowCalls hj vj N baseW remW y (span baseH remH y) csy 0 N 0 in
  match firstFailure env (canvasesCreated w) N with
  | None =>
    bodyY env img N hj vj baseW baseH remW remH y (pieces, csy) w =
    (Next (pieces ++ map render row, csy + span baseH remH y),
     mkWorld (randomCalls w) (canvasesCreated w + N) (rasterCalls w ++ row))
  | Some e =>
    let r := bodyY env img N hj vj baseW baseH remW remH y (pieces, csy) w in
    fst r = ReturnReject e /\
    exists m, m <= N /\ rasterCalls (snd r) = rasterCalls w ++ firstn m row
  end.
Proof.
  intros Hy row. unfold bodyY, bind.
  pose proof (@forX_spec y (span baseH remH y) csy N 0 pieces 0 w
                Hy ltac:(lia)) as HX.
  fold (span baseH remH y).
  destruct (firstFailure env (canvasesCreated w) N) as [e|].
  - cbv zeta in HX. destruct (forLoop 0 N _ (pieces, 0) w) as [r w1].
    cbn [fst snd] in HX. destruct HX as [-> HX]. split; [reflexivity|exact HX].
  - rewrite HX. reflexivity.
Qed.

Lemma forY_spec count : forall y pieces csy w,
  y + count <= N ->
  match firstFailure env (canvasesCreated w) (count * N) with
  | None =>
    forLoop y count (bodyY env img N hj vj baseW baseH remW remH) (pieces, csy) w =
    (Next (pieces ++ map render (gridCalls hj vj N baseW baseH remW remH y count csy),
           csy + sumSpan baseH remH y count),
     mkWorld (randomCalls w) (canvasesCreated w + count * N)
       (rasterCalls w ++ gridCalls hj vj N baseW baseH remW remH y count csy))
  | Some e =>
    let r := forLoop y count (bodyY env img N hj vj baseW baseH remW remH)
               (pieces, csy) w in
    fst r = ReturnReject e /\
    exists m, m <= count * N /\
      rasterCalls (snd r) =
      rasterCalls w ++ firstn m (gridCalls hj vj N baseW baseH remW remH y count csy)
  end.
Proof.
  induction count as [|count IH]; intros y pieces csy w Hy.
  - simpl. unfold ret, sumSpan. simpl.
    rewrite !app_nil_r, !Nat.add_0_r. now destruct w.
  - cbn [Nat.mul forLoop gridCalls]. rewrite firstFailure_app. unfold bind.
    pose proof (@bodyY_step y pieces csy w ltac:(lia)) as HY. cbv zeta in HY.
    destruct (firstFailure env (canvasesCreated w) N) as [e|].
    + cbv zeta. destruct (bodyY _ _ _ _ _ _ _ _ _ _ (pieces, csy) w) as [r w1].
      cbn [fst snd] in HY. destruct HY as [-> (m & Hm & HY)].
      split; [reflexivity|]. exists m. split; [lia|].
      cbn [snd ret]. rewrite HY. f_equal. symmetry.
      eapply firstn_app_short; [apply rowCalls_length|exact Hm].
    + rewrite HY.
      match goal with
      | |- context [forLoop (S y) count _ (?p, ?c) ?w1] =>
        specialize (IH (S y) p c w1 ltac:(lia))
      end.
      cbn [canvasesCreated randomCalls rasterCalls] in IH.
      destruct (firstFailure env (canvasesCreated w + N) (count * N)) as [e|].
      * cbv zeta in IH. destruct IH as [IH1 (m & Hm & IH2)].
        split; [exact IH1|]. exists (N + m). split; [lia|].
        rewrite IH2, <- app_assoc. f_equal. symmetry.
        apply firstn_app_long, rowCalls_length.
      * rewrite IH. unfold sumSpan. cbn [seq map list_sum].
        rewrite map_app, <- !app_assoc.
        f_equal; [f_equal | f_equal; lia].
        f_equal. simpl. lia.
Qed.

End LoopFacts.

(** ** The calls of a run, by cell *)

Section CellFacts.
Variables hj vj : list (list JigsawSide).
Variable N : nat.
Variables baseW baseH remW remH : nat.

Lemma sumSpan_S base remainder start count :
  sumSpan base remainder start (S count) =
  sumSpan base remainder start count + span base remainder (start + count).
Proof.
  unfold sumSpan. rewrite seq_S, map_app, list_sum_app. simpl. lia.
Qed.

Lemma rowCalls_nth y pieceH csy count : forall x csx i,
  i < count ->
  nth_error (rowCalls hj vj N baseW remW y pieceH csy x count csx) i =
  Some (mkRasterCall (csx + sumSpan baseW remW x i) csy (span baseW remW (x + i))
          pieceH (cellShape hj vj N y (x + i))).
Proof.
  induction count as [|count IH]; intros x csx i Hi; [lia|].
  destruct i as [|i]; simpl.
  - unfold sumSpan. simpl. now rewrite !Nat.add_0_r.
  - rewrite IH by lia. unfold sumSpan. simpl.
    rewrite !Nat.add_succ_r. do 2 f_equal. lia.
Qed.

Lemma gridCalls_length count : forall y csy,
  length (gridCalls hj vj N baseW baseH remW remH y count csy) = count * N.
Proof.
  induction count as [|count IH]; intros y csy; simpl; [reflexivity|].
  now rewrite length_app, rowCalls_length, IH.
Qed.

Lemma gridCalls_nth count : forall y csy i x,
  i < count -> x < N ->
  nth_error (gridCalls hj vj N baseW baseH remW remH y count csy) (i * N + x) =
  Some (mkRasterCall (sumSpan baseW remW 0 x) (csy + sumSpan baseH remH y i)
          (span baseW remW x) (span baseH remH (y + i))
          (cellShape hj vj N (y + i) x)).
Proof.
  induction count as [|count IH]; intros y csy i x Hi Hx; [lia|].
  destruct i as [|i]; cbn [gridCalls].
  - rewrite nth_error_app1 by (rewrite rowCalls_length; lia).
    simpl. rewrite rowCalls_nth by lia. unfold sumSpan at 2. simpl.
    now rewrite !Nat.add_0_r.
  - rewrite nth_error_app2 by (rewrite rowCalls_length; simpl; lia).
    rewrite rowCalls_length.
    replace (S i * N + x - N) with (i * N + x) by (simpl; lia).
    rewrite IH by lia.
    unfold sumSpan. simpl. rewrite !Nat.add_succ_r. do 2 f_equal. lia.
Qed.

End CellFacts.

(** ** The partition *)

Lemma sumSpan_closed base remainder n :
  sumSpan base remainder 0 n = n * base + Nat.min n remainder.
Proof.
  induction n as [|n IH]; [reflexivity|].
  rewrite sumSpan_S, IH. unfold span. rewrite Nat.add_0_l.
  destruct (Nat.ltb_spec n remainder); lia.
Qed.

Lemma sumSpan_total total N :
  0 < N -> sumSpan (total / N) (total mod N) 0 N = total.
Proof.
  intros HN. rewrite sumSpan_closed.
  pose proof (Nat.mod_upper_bound total N ltac:(lia)).
  pose proof (Nat.div_mod_eq total N). lia.
Qed.

Lemma sumSpan_mono base remainder x x' :
  x < x' ->
  sumSpan base remainder 0 x + span base remainder x <= sumSpan base remainder 0 x'.
Proof.
  induction 1.
  - rewrite sumSpan_S. simpl. lia.
  - rewrite sumSpan_S. simpl. lia.
Qed.

Lemma sumSpan_locate base remainder n p :
  p < sumSpan base remainder 0 n ->
  exists x, x < n /\
    sumSpan base remainder 0 x <= p < sumSpan base remainder 0 x + span base remainder x.
Proof.
  induction n as [|n IH]; intros Hp.
  - unfold sumSpan in Hp. simpl in Hp. lia.
  - rewrite sumSpan_S in Hp. simpl in Hp.
    destruct (Nat.lt_ge_cases p (sumSpan base remainder 0 n)) as [Hlt|Hge].
    + destruct (IH Hlt) as (x & Hx & Hin). exists x. split; [lia|assumption].
    + exists n. split; lia.
Qed.

Lemma sumSpan_unique base remainder p x x' :
  sumSpan base remainder 0 x <= p < sumSpan base remainder 0 x + span base remainder x ->
  sumSpan base remainder 0 x' <= p < sumSpan base remainder 0 x' + span base remainder x' ->
  x = x'.
Proof.
  intros H1 H2.
  destruct (Nat.lt_trichotomy x x') as [Hlt|[Heq|Hgt]]; [|assumption|].
  - pose proof (sumSpan_mono base remainder Hlt). lia.
  - pose proof (sumSpan_mono base remainder Hgt). lia.
Qed.

(** ** The whole run *)



(** A run on a decoded image with a perfect-square piece count: it resolves
    with the images of all cells in row-major order when every canvas
    yields a context, and rejects with the error of the first canvas that
    does not. *)
Lemma createJigsawPieces_run env imageBase64 pieceCount img N :
  decode env ("data:image/png;base64," ++ imageBase64) = Some img ->
  Math_sqrt pieceCount = Some N ->
  let g := generateJoints env N newWorld in
  let calls := allCalls (fst (fst g)) (snd (fst g)) (img_width img) (img_height img) N in
  match firstFailure env 0 (N * N) with
  | None =>
    createJigsawPieces env imageBase64 pieceCount =
    (Resolved (map render calls), mkWorld (randomCalls (snd g)) (N * N) calls)
  | Some e =>
    fst (createJigsawPieces env imageBase64 pieceCount) = Rejected e /\
    exists m, m <= N * N /\
      rasterCalls (snd (createJigsawPieces env imageBase64 pieceCount)) = firstn m calls
  end.
Proof.
  intros Hd Hs g calls. unfold createJigsawPieces. rewrite Hd.
  unfold onload. rewrite Hs. unfold bind.
  pose proof (generateJoints_spec env N newWorld) as [WF [Hc Hr]].
  subst calls g. destruct (generateJoints env N newWorld) as [[hj vj] w1].
  cbn [fst snd] in *. simpl in Hc, Hr.
  pose proof (@forY_spec env img N hj vj (img_width img / N) (img_height img / N)
                (img_width img mod N) (img_height img mod N) WF N 0 [] 0 w1
                ltac:(lia)) as HY.
  rewrite Hc, Hr in HY. cbn [app Nat.add] in HY.
  destruct (firstFailure env 0 (N * N)) as [e|].
  - cbv zeta in HY. destruct (forLoop 0 N _ ([], 0) w1) as [r w2].
    cbn [fst snd] in HY. destruct HY as [-> HY]. split; [reflexivity|exact HY].
  - rewrite HY. reflexivity.
Qed.

Lemma nth_error_firstn_Some (A : Type) (l : list A) : forall m k c,
  nth_error (firstn m l) k = Some c -> nth_error l k = Some c.
Proof.
  induction l as [|a l IH]; intros m k c H.
  - rewrite firstn_nil in H. now destruct k.
  - destruct m as [|m]; [now destruct k|].
    destruct k as [|k]; simpl in *; [assumption|]. eapply IH; eassumption.
Qed.

Lemma allCalls_length hj vj W H N : length (allCalls hj vj W H N) = N * N.
Proof. apply gridCalls_length. Qed.

Lemma allCalls_nth hj vj W H N y x :
  y < N -> x < N ->
  nth_error (allCalls hj vj W H N) (y * N + x) = Some (cellCall hj vj W H N y x).
Proof.
  intros Hy Hx. unfold allCalls. now rewrite gridCalls_nth.
Qed.

Lemma index_split N k : k < N * N -> exists y x, y < N /\ x < N /\ k = y * N + x.
Proof.
  intros Hk. assert (HN : N <> 0) by lia.
  exists (k / N), (k mod N). split; [|split].
  - apply Nat.Div0.div_lt_upper_bound. lia.
  - now apply Nat.mod_upper_bound.
  - pose proof (Nat.div_mod_eq k N). lia.
Qed.

Section RunFacts.
Variable env : Browser.
Variables (imageBase64 : string) (pieceCount : Z).
Variables (img : HTMLImageElement) (N : nat).
Hypothesis Hdecode : decode env ("data:image/png;base64," ++ imageBase64) = Some img.
Hypothesis Hsqrt : Math_sqrt pieceCount = Some N.

(** The calls made are an initial segment of the calls for all cells. *)
Lemma run_calls_prefix :
  exists m, m <= N * N /\
    rasterCalls (snd (createJigsawPieces env imageBase64 pieceCount)) =
    firstn m (runCalls env img N).
Proof.
  pose proof (createJigsawPieces_run env imageBase64 pieceCount Hdecode Hsqrt) as HR.
  cbv zeta in HR. fold (jointsOf env N) in HR. fold (runCalls env img N) in HR.
  destruct (firstFailure env 0 (N * N)) as [e|].
  - destruct HR as [_ HR]. exact HR.
  - exists (N * N). split; [lia|]. rewrite HR. cbn [snd rasterCalls].
    symmetry. apply firstn_all2. unfold runCalls. rewrite allCalls_length. lia.
Qed.

Lemma run_call_at y x c :
  y < N -> x < N ->
  nth_error (rasterCalls (snd (createJigsawPieces env imageBase64 pieceCount)))
    (y * N + x) = Some c ->
  c = cellCall (fst (jointsOf env N)) (snd (jointsOf env N))
        (img_width img) (img_height img) N y x.
Proof.
  intros Hy Hx Hc. destruct run_calls_prefix as (m & _ & Hm).
  rewrite Hm in Hc. apply nth_error_firstn_Some in Hc.
  unfold runCalls in Hc. rewrite allCalls_nth in Hc by assumption. congruence.
Qed.

Lemma run_success :
  firstFailure env 0 (N * N) = None ->
  fst (createJigsawPieces env imageBase64 pieceCount) =
    Resolved (map render (runCalls env img N)) /\
  rasterCalls (snd (createJigsawPieces env imageBase64 pieceCount)) = runCalls env img N /\
  canvasesCreated (snd (createJigsawPieces env imageBase64 pieceCount)) = N * N.
Proof.
  intros HF.
  pose proof (createJigsawPieces_run env imageBase64 pieceCount Hdecode Hsqrt) as HR.
  cbv zeta in HR. fold (jointsOf env N) in HR. fold (runCalls env img N) in HR.
  rewrite HF in HR. rewrite HR. repeat split.
Qed.

Lemma run_failure e :
  firstFailure env 0 (N * N) = Some e ->
  fst (createJigsawPieces env imageBase64 pieceCount) = Rejected e.
Proof.
  intros HF.
  pose proof (createJigsawPieces_run env imageBase64 pieceCount Hdecode Hsqrt) as HR.
  cbv zeta in HR. rewrite HF in HR. apply HR.
Qed.

End RunFacts.

(** ** Partition of the image *)

(** C2. For an image of [W] by [H] pixels cut into a grid of side [N >= 2],
    the call made for the cell in row [y] and column [x] has width
    [W / N + 1] if [x < W mod N] and [W / N] otherwise, and height
    [H / N + 1] if [y < H mod N] and [H / N] otherwise; the [N] column widths
    sum to [W] and the [N] row heights sum to [H]; when every canvas yields a
    context, all [N * N] cells are reached. *)
Theorem partition_sizes env imageBase64 pieceCount img N :
  decode env ("data:image/png;base64," ++ imageBase64) = Some img ->
  Math_sqrt pieceCount = Some N ->
  2 <= N ->
  let W := img_width img in
  let H := img_height img in
  let calls := rasterCalls (snd (createJigsawPieces env imageBase64 pieceCount)) in
  (forall y x c, y < N -> x < N -> nth_error calls (y * N + x) = Some c ->
     pieceWidth c = W / N + (if x <? W mod N then 1 else 0) /\
     pieceHeight c = H / N + (if y <? H mod N then 1 else 0)) /\
  list_sum (map (fun x => W / N + (if x <? W mod N then 1 else 0)) (seq 0 N)) = W /\
  list_sum (map (fun y => H / N + (if y <? H mod N then 1 else 0)) (seq 0 N)) = H /\
  (firstFailure env 0 (N * N) = None -> length calls = N * N).
Proof.
  intros Hd Hs HN W H calls. repeat split.
  - rewrite (run_call_at env imageBase64 pieceCount Hd Hs H0 H1 H2). reflexivity.
  - rewrite (run_call_at env imageBase64 pieceCount Hd Hs H0 H1 H2). reflexivity.
  - apply (sumSpan_total W). lia.
  - apply (sumSpan_total H). lia.
  - intros HF. subst calls.
    destruct (run_success env imageBase64 pieceCount Hd Hs HF) as (_ & -> & _).
    apply allCalls_length.
Qed.

(** ** Validation of the piece count *)


(** On the piece counts from 0 to 4096 the test computed on doubles agrees
    with [Math_sqrt]. *)
Lemma validation_on_small_counts :
  forallb (fun k =>
             Bool.eqb (Double.validationRejects (Double.ofZ (Z.of_nat k)))
                      (match Math_sqrt (Z.of_nat k) with
                       | Some _ => false
                       | None => true
                       end))
          (seq 0 4097) = true.
Proof. vm_compute. reflexivity. Qed.

(** So it does just below 2^52: the 2048 counts from 2^52 - 2048 to
    2^52 - 1, none of which is a perfect square, are rejected, and 2^52,
    the square of 67108864, is accepted. *)
Lemma validation_below_limit :
  forallb (fun k =>
             Double.validationRejects
               (Double.ofZ (4503599627370495 - Z.of_nat k))
             && match Math_sqrt (4503599627370495 - Z.of_nat k) with
                | Some _ => false
                | None => true
                end)
          (seq 0 2048) = true /\
  Double.validationRejects (Double.ofZ 4503599627370496) = false /\
  (67108864 * 67108864 = 4503599627370496)%Z.
Proof. vm_compute. repeat split. Qed.



(** ** Failure of a piece *)

Lemma firstFailure_None env k count :
  firstFailure env k count = None <->
  forall i, i < count -> getContext env (k + i) = Context2D.
Proof.
  revert k. induction count as [|count IH]; intros k; simpl.
  - split; [intros _ i Hi; lia|reflexivity].
  - destruct (getContext env k) eqn:E; simpl.
    + rewrite IH. split.
      * intros Hall [|i] Hi; [now rewrite Nat.add_0_r|].
        rewrite Nat.add_succ_r. apply Hall. lia.
      * intros Hall i Hi. replace (S k + i) with (k + S i) by lia.
        apply Hall. lia.
    + split; [discriminate|]. intros Hall.
      specialize (Hall 0 ltac:(lia)). rewrite Nat.add_0_r in Hall. congruence.
    + split; [discriminate|]. intros Hall.
      specialize (Hall 0 ltac:(lia)). rewrite Nat.add_0_r in Hall. congruence.
Qed.

Lemma firstFailure_first env count : forall k i e,
  i < count ->
  surfaceError (getContext env (k + i)) = Some e ->
  (forall j, j < i -> getContext env (k + j) = Context2D) ->
  firstFailure env k count = Some e.
Proof.
  induction count as [|count IH]; intros k i e Hi He Hbefore; [lia|].
  simpl. destruct i as [|i].
  - rewrite Nat.add_0_r in He. now rewrite He.
  - pose proof (Hbefore 0 ltac:(lia)) as H0. rewrite Nat.add_0_r in H0.
    rewrite H0. simpl. apply (IH (S k) i e); [lia| |].
    + now replace (S k + i) with (k + S i) by lia.
    + intros j Hj. replace (S k + j) with (k + S j) by lia. apply Hbefore. lia.
Qed.

(** C6. On a loaded image with a perfect-square piece count [N * N]: if
    creating the canvas of piece [k] fails with error [e] (no 2D context, or
    an exception of the host) and the pieces before it were rasterized, the
    promise is rejected with [e]; and whenever the promise resolves, it
    resolves with exactly [N * N] images and every canvas yielded a context.
    So a failing piece never leaves a partial piece list. *)
Theorem batch_all_or_nothing env imageBase64 pieceCount img N :
  decode env ("data:image/png;base64," ++ imageBase64) = Some img ->
  Math_sqrt pieceCount = Some N ->
  let run := createJigsawPieces env imageBase64 pieceCount in
  (forall k e,
     k < N * N ->
     surfaceError (getContext env k) = Some e ->
     (forall j, j < k -> getContext env j = Context2D) ->
     fst run = Rejected e) /\
  (forall pieces,
     fst run = Resolved pieces ->
     length pieces = N * N /\
     forall k, k < N * N -> getContext env k = Context2D) /\
  (forall k, k < N * N -> getContext env k <> Context2D ->
     exists e, fst run = Rejected e).
Proof.
  intros Hd Hs run. unfold run. clear run.
  set (run := createJigsawPieces env imageBase64 pieceCount).
  assert (Hres : forall pieces, fst run = Resolved pieces ->
            length pieces = N * N /\
            forall k, k < N * N -> getContext env k = Context2D).
  { intros pieces Hp.
    destruct (firstFailure env 0 (N * N)) as [e|] eqn:HF.
    - unfold run in Hp.
      rewrite (run_failure env imageBase64 pieceCount Hd Hs HF) in Hp. discriminate.
    - destruct (run_success env imageBase64 pieceCount Hd Hs HF) as (Hr & _).
      unfold run in Hp. rewrite Hr in Hp. injection Hp as <-.
      unfold runCalls. rewrite length_map, allCalls_length. split; [reflexivity|].
      intros k Hk. apply (proj1 (firstFailure_None env 0 (N * N)) HF k Hk). }
  split; [|split].
  - intros k e Hk He Hbefore.
    apply (run_failure env imageBase64 pieceCount Hd Hs).
    apply firstFailure_first with (i := k); assumption.
  - exact Hres.
  - intros k Hk Hbad.
    destruct (firstFailure env 0 (N * N)) as [e|] eqn:HF.
    + exists e. apply (run_failure env imageBase64 pieceCount Hd Hs HF).
    + exfalso. apply Hbad.
      apply (proj1 (firstFailure_None env 0 (N * N)) HF k Hk).
Qed.

(** ** Numbering of the pieces *)

Lemma initialPiecesFrom_nth images : forall index k p,
  nth_error (initialPiecesFrom index images) k = Some p ->
  id p = index + k /\ originalIndex p = index + k /\
  nth_error images k = Some (imageUrl p).
Proof.
  induction images as [|u images IH]; intros index k p H; simpl in H.
  - now destruct k.
  - destruct k as [|k]; simpl in H.
    + injection H as <-. simpl. repeat split; lia.
    + destruct (IH _ _ _ H) as (H1 & H2 & H3). simpl. repeat split; try lia.
      assumption.
Qed.

Lemma all_contexts env n :
  (forall k, k < n -> getContext env k = Context2D) -> firstFailure env 0 n = None.
Proof. intros H. apply firstFailure_None. exact H. Qed.

Lemma cellCall_exact hj vj W H N y x q r :
  0 < N -> W = N * q -> H = N * r ->
  cellCall hj vj W H N y x = mkRasterCall (x * q) (y * r) q r (cellShape hj vj N y x).
Proof.
  intros HN -> ->. unfold cellCall.
  rewrite !sumSpan_closed. unfold span.
  rewrite !(Nat.mul_comm N), !Nat.Div0.mod_mul, !Nat.div_mul by lia.
  simpl. rewrite !Nat.min_0_r. f_equal; lia.
Qed.

(** C7. For an image of 800 by 800 pixels and a piece count of 16, when
    every canvas yields a context: the promise resolves with 16 images, the
    image of index [k] being made from the [k]-th call; the [k]-th call has a
    source rectangle of 200 by 200 pixels at column [k mod 4] and row
    [k / 4] (row-major order); the piece made from image [k] has id [k]; call
    5 is at row 1, column 1, its top side is the inverse of the bottom side
    of call 1 and its left side is the inverse of the right side of call 4. *)
Theorem scenario_800_16 env imageBase64 :
  decode env ("data:image/png;base64," ++ imageBase64) = Some (mkImage 800 800) ->
  (forall k, k < 16 -> getContext env k = Context2D) ->
  let run := createJigsawPieces env imageBase64 16 in
  let calls := rasterCalls (snd run) in
  exists images,
    fst run = Resolved images /\ images = map render calls /\
    length images = 16 /\ length calls = 16 /\
    (forall k c, nth_error calls k = Some c ->
       sourceX c = 200 * (k mod 4) /\ sourceY c = 200 * (k / 4) /\
       pieceWidth c = 200 /\ pieceHeight c = 200) /\
    (forall k p, nth_error (initialPieces images) k = Some p ->
       id p = k /\ originalIndex p = k /\ nth_error images k = Some (imageUrl p)) /\
    exists c1 c4 c5 j1 j4,
      nth_error calls 1 = Some c1 /\ nth_error calls 4 = Some c4 /\
      nth_error calls 5 = Some c5 /\
      sourceX c5 = 200 /\ sourceY c5 = 200 /\
      bottom (shape c1) = Side j1 /\ top (shape c5) = Side (inverse j1) /\
      right (shape c4) = Side j4 /\ left (shape c5) = Side (inverse j4).
Proof.
  intros Hd Hctx run calls.
  assert (Hs : Math_sqrt 16 = Some 4) by reflexivity.
  destruct (run_success env imageBase64 16 Hd Hs (all_contexts env Hctx))
    as (Hr & Hc & _).
  unfold runCalls in Hr, Hc. cbn [img_width img_height] in Hr, Hc.
  set (hj := fst (jointsOf env 4)) in *. set (vj := snd (jointsOf env 4)) in *.
  assert (Hcell : forall y x, y < 4 -> x < 4 ->
            nth_error calls (y * 4 + x) =
            Some (mkRasterCall (x * 200) (y * 200) 200 200 (cellShape hj vj 4 y x))).
  { intros y x Hy Hx. unfold calls, run. rewrite Hc.
    rewrite allCalls_nth by assumption.
    now rewrite (@cellCall_exact hj vj 800 800 4 y x 200 200) by (reflexivity || lia). }
  exists (map render calls). split; [|split; [reflexivity|]].
  { unfold calls, run. now rewrite Hc. }
  assert (Hlen : length calls = 16).
  { unfold calls, run. rewrite Hc. apply allCalls_length. }
  split; [now rewrite length_map|]. split; [exact Hlen|]. split; [|split].
  - intros k c Hk.
    assert (Hlt : k < 4 * 4).
    { assert (k < length calls) by (apply nth_error_Some; congruence). lia. }
    destruct (@index_split 4 k Hlt) as (y & x & Hy & Hx & ->).
    rewrite (Hcell y x Hy Hx) in Hk. injection Hk as <-.
    cbn [sourceX sourceY pieceWidth pieceHeight].
    rewrite (Nat.add_comm (y * 4) x).
    rewrite Nat.Div0.mod_add, Nat.mod_small by lia.
    rewrite Nat.div_add, Nat.div_small by lia.
    repeat split; lia.
  - intros k p Hp. apply (initialPiecesFrom_nth (map render calls) 0 k Hp).
  - exists (mkRasterCall 200 0 200 200 (cellShape hj vj 4 0 1)),
           (mkRasterCall 0 200 200 200 (cellShape hj vj 4 1 0)),
           (mkRasterCall 200 200 200 200 (cellShape hj vj 4 1 1)),
           (joint vj 0 1), (joint hj 1 0).
    split; [exact (Hcell 0 1 ltac:(lia) ltac:(lia))|].
    split; [exact (Hcell 1 0 ltac:(lia) ltac:(lia))|].
    split; [exact (Hcell 1 1 ltac:(lia) ltac:(lia))|].
    repeat split.
Qed.

(** ** Piece counts 0 and 1 *)

(** C9. The validation accepts the piece counts 0 and 1.  With piece count
    0 the promise resolves with the empty list and no canvas is created.
    With piece count 1, when the canvas yields a context, the promise
    resolves with one image, made from a call whose source rectangle is the
    whole image and whose four sides are FLAT. *)
Theorem degenerate_counts env imageBase64 img :
  decode env ("data:image/png;base64," ++ imageBase64) = Some img ->
  Math_sqrt 0 = Some 0 /\ Math_sqrt 1 = Some 1 /\
  createJigsawPieces env imageBase64 0 = (Resolved [], newWorld) /\
  (getContext env 0 = Context2D ->
   let c := mkRasterCall 0 0 (img_width img) (img_height img)
              (mkPieceShape FLAT FLAT FLAT FLAT) in
   fst (createJigsawPieces env imageBase64 1) = Resolved [render c] /\
   rasterCalls (snd (createJigsawPieces env imageBase64 1)) = [c]).
Proof.
  intros Hd. split; [reflexivity|]. split; [reflexivity|]. split.
  - unfold createJigsawPieces. rewrite Hd. reflexivity.
  - intros Hctx c.
    assert (Hs : Math_sqrt 1 = Some 1) by reflexivity.
    assert (HF : firstFailure env 0 (1 * 1) = None) by (simpl; now rewrite Hctx).
    destruct (run_success env imageBase64 1 Hd Hs HF) as (Hr & Hc & _).
    rewrite Hr, Hc. unfold runCalls, allCalls.
    rewrite !Nat.div_1_r, !Nat.mod_1_r. simpl.
    unfold span. simpl. rewrite !Nat.add_0_r. split; reflexivity.
Qed.

(** ** Images smaller than the grid *)

(** C10. For any image of [W] by [H] pixels and any grid side [N >= 1]
    (also when [W < N] or [H < N]), when every canvas yields a context: the
    run does not fail; the cell in row [y] and column [x] gets the width and
    height of the partition, which are 1 for the first [W] columns and 0 for
    the others when [W < N] (and likewise for rows when [H < N]); its source
    origin is the sum of the widths of the columns before it and of the
    heights of the rows before it; the widths sum to [W] and the heights to
    [H]; every pixel of the image lies in the source rectangle of exactly one
    call, and every source rectangle lies inside the image. *)
Theorem partition_covers env imageBase64 pieceCount img N :
  decode env ("data:image/png;base64," ++ imageBase64) = Some img ->
  Math_sqrt pieceCount = Some N ->
  1 <= N ->
  (forall k, k < N * N -> getContext env k = Context2D) ->
  let W := img_width img in
  let H := img_height img in
  let width_of := fun x => W / N + (if x <? W mod N then 1 else 0) in
  let height_of := fun y => H / N + (if y <? H mod N then 1 else 0) in
  let run := createJigsawPieces env imageBase64 pieceCount in
  let calls := rasterCalls (snd run) in
  (exists images, fst run = Resolved images /\ length images = N * N) /\
  length calls = N * N /\
  (forall y x, y < N -> x < N ->
     exists c, nth_error calls (y * N + x) = Some c /\
       pieceWidth c = width_of x /\ pieceHeight c = height_of y /\
       sourceX c = list_sum (map width_of (seq 0 x)) /\
       sourceY c = list_sum (map height_of (seq 0 y)) /\
       (W < N -> pieceWidth c = if x <? W then 1 else 0) /\
       (H < N -> pieceHeight c = if y <? H then 1 else 0)) /\
  list_sum (map width_of (seq 0 N)) = W /\
  list_sum (map height_of (seq 0 N)) = H /\
  (forall px py, px < W -> py < H ->
     exists k c, nth_error calls k = Some c /\ covers c px py /\
       forall k' c', nth_error calls k' = Some c' -> covers c' px py -> k' = k) /\
  (forall k c px py, nth_error calls k = Some c -> covers c px py -> px < W /\ py < H).
Proof.
  intros Hd Hs HN Hctx W H width_of height_of run calls.
  destruct (run_success env imageBase64 pieceCount Hd Hs (all_contexts env Hctx))
    as (Hr & Hc & _).
  unfold runCalls in Hr, Hc. fold W H in Hr, Hc.
  set (hj := fst (jointsOf env N)) in *. set (vj := snd (jointsOf env N)) in *.
  assert (Hcalls : calls = allCalls hj vj W H N) by exact Hc.
  assert (Hlen : length calls = N * N) by (rewrite Hcalls; apply allCalls_length).
  assert (Hcell : forall y x, y < N -> x < N ->
            nth_error calls (y * N + x) = Some (cellCall hj vj W H N y x)).
  { intros y x Hy Hx. rewrite Hcalls. now apply allCalls_nth. }
  assert (HsumW : sumSpan (W / N) (W mod N) 0 N = W) by (apply sumSpan_total; lia).
  assert (HsumH : sumSpan (H / N) (H mod N) 0 N = H) by (apply sumSpan_total; lia).
  assert (Hany : forall k c, nth_error calls k = Some c ->
            exists y x, y < N /\ x < N /\ k = y * N + x /\ c = cellCall hj vj W H N y x).
  { intros k c Hk.
    assert (Hlt : k < N * N).
    { rewrite <- Hlen. apply nth_error_Some. congruence. }
    destruct (@index_split N k Hlt) as (y & x & Hy & Hx & ->).
    exists y, x. repeat split; try assumption.
    rewrite (Hcell y x Hy Hx) in Hk. congruence. }
  split; [|split; [exact Hlen|split; [|split; [exact HsumW|split; [exact HsumH|split]]]]].
  - exists (map render calls). split.
    + unfold run. rewrite Hr. now rewrite Hcalls.
    + now rewrite length_map.
  - intros y x Hy Hx. exists (cellCall hj vj W H N y x).
    split; [now apply Hcell|]. repeat split.
    + intros HW. simpl. unfold span.
      now rewrite Nat.div_small, Nat.mod_small by assumption.
    + intros HH. simpl. unfold span.
      now rewrite Nat.div_small, Nat.mod_small by assumption.
  - intros px py Hpx Hpy.
    rewrite <- HsumW in Hpx. rewrite <- HsumH in Hpy.
    destruct (sumSpan_locate _ _ _ Hpx) as (x & Hx & Hinx).
    destruct (sumSpan_locate _ _ _ Hpy) as (y & Hy & Hiny).
    exists (y * N + x), (cellCall hj vj W H N y x).
    split; [now apply Hcell|]. split; [split; assumption|].
    intros k' c' Hk' [Hcx Hcy].
    destruct (Hany k' c' Hk') as (y' & x' & Hy' & Hx' & -> & ->).
    simpl in Hcx, Hcy.
    rewrite (sumSpan_unique _ _ _ _ Hcx Hinx).
    now rewrite (sumSpan_unique _ _ _ _ Hcy Hiny).
  - intros k c px py Hk [Hcx Hcy].
    destruct (Hany k c Hk) as (y & x & Hy & Hx & -> & ->).
    simpl in Hcx, Hcy.
    pose proof (sumSpan_mono (W / N) (W mod N) Hx).
    pose proof (sumSpan_mono (H / N) (H mod N) Hy).
    split; lia.
Qed.

(** ** The rasterizer *)

Section RasterizerFacts.
Local Open Scope R_scope.

Lemma normLen_nonzero dx dy :
  (dx, dy) <> (0, 0) -> sqrt (dy * dy + - dx * - dx) <> 0.
Proof.
  intros Hne Hz. apply sqrt_eq_0 in Hz; [|nra].
  apply Hne. f_equal; nra.
Qed.

Lemma div_finite a b : b <> 0 -> div a b = Fin (a / b).
Proof. intros Hb. unfold div. now destruct (Req_dec_T b 0). Qed.

Lemma div_by_zero a : div a 0 = NonFinite.
Proof. unfold div. destruct (Req_dec_T 0 0); [reflexivity|contradiction]. Qed.

(** The integer part of a real number lies at most one below it. *)
Lemma Int_part_bounds x : x - 1 < IZR (Int_part x) <= x.
Proof. destruct (base_Int_part x). lra. Qed.

(** A number from 0 to below 2^31 is read back without its fraction. *)
Lemma unsignedLong_in_range default x :
  0 <= x < 2147483648 -> unsignedLong default x = IZR (Int_part x).
Proof.
  intros [H0 H1]. unfold unsignedLong.
  destruct (Rlt_dec x 0) as [Hneg|_]; [lra|].
  pose proof (Int_part_bounds x) as [Hlo Hhi].
  assert (Hge : (0 <= Int_part x)%Z).
  { assert (IZR (-1) < IZR (Int_part x)) as Hlt by (simpl; lra).
    apply lt_IZR in Hlt. lia. }
  assert (Hlt : (Int_part x < 2147483648)%Z).
  { apply lt_IZR. lra. }
  rewrite Z.mod_small by lia.
  destruct (Z.leb_spec (Int_part x) 2147483647); [reflexivity|lia].
Qed.

(** An integer from 0 to below 2^31 is read back as it was assigned. *)
Lemma unsignedLong_integer default x (z : Z) :
  0 <= x < 2147483648 -> x = IZR z -> unsignedLong default x = x.
Proof.
  intros Hx Hz. rewrite unsignedLong_in_range by assumption.
  rewrite Hz at 2. f_equal. symmetry. apply Int_part_spec. lra.
Qed.

(** C8, amended.  When the canvas yields a context, [createPieceCanvas]
    assigns [pw * (1 + 2 * KNOB_RATIO)] and [ph * (1 + 2 * KNOB_RATIO)],
    with [KNOB_RATIO = 0.2], to the width and the height of the canvas,
    which keep the integer part of what they are assigned (up to 2^31):
    the canvas is the integer part of [pw * (1 + 2 * KNOB_RATIO)] wide and
    of [ph * (1 + 2 * KNOB_RATIO)] high, less than one below these
    numbers, and equal to them when they are integers.  The first call on
    the context translates the origin by the margin [KNOB_RATIO * pw],
    [KNOB_RATIO * ph] exactly, and the outline is drawn next: from the
    top-left corner of the piece, its top, right, bottom and left sides. *)
Theorem canvas_padding env sourceImage sx sy pw ph shape w :
  getContext env (canvasesCreated w) = Context2D ->
  0 <= pw -> 0 <= ph ->
  pw * (1 + 2 * KNOB_RATIO) < 2147483648 ->
  ph * (1 + 2 * KNOB_RATIO) < 2147483648 ->
  exists canvas rest,
    fst (createPieceCanvas env sourceImage sx sy pw ph shape w) = Ok canvas /\
    KNOB_RATIO = 2 / 10 /\
    width canvas = IZR (Int_part (pw * (1 + 2 * KNOB_RATIO))) /\
    height canvas = IZR (Int_part (ph * (1 + 2 * KNOB_RATIO))) /\
    pw * (1 + 2 * KNOB_RATIO) - 1 < width canvas <= pw * (1 + 2 * KNOB_RATIO) /\
    ph * (1 + 2 * KNOB_RATIO) - 1 < height canvas <= ph * (1 + 2 * KNOB_RATIO) /\
    (forall z : Z, pw * (1 + 2 * KNOB_RATIO) = IZR z ->
       width canvas = KNOB_RATIO * pw + pw + KNOB_RATIO * pw) /\
    (forall z : Z, ph * (1 + 2 * KNOB_RATIO) = IZR z ->
       height canvas = KNOB_RATIO * ph + ph + KNOB_RATIO * ph) /\
    ops canvas =
      translate (KNOB_RATIO * pw) (KNOB_RATIO * ph) :: beginPath ::
      moveTo 0 0 ::
      drawSide 0 0 pw 0 (top shape) ++
      drawSide pw 0 pw ph (right shape) ++
      drawSide pw ph 0 ph (bottom shape) ++
      drawSide 0 ph 0 0 (left shape) ++
      closePath :: rest.
Proof.
  intros Hctx Hpw Hph Hw Hh. unfold createPieceCanvas. rewrite Hctx. cbn [fst].
  eexists. eexists. split; [reflexivity|].
  unfold paintPiece, outline. cbn [width height ops].
  assert (HK : KNOB_RATIO = 2 / 10) by (unfold KNOB_RATIO; lra).
  assert (EW : pw + 2 * (pw * KNOB_RATIO) = pw * (1 + 2 * KNOB_RATIO)) by ring.
  assert (EH : ph + 2 * (ph * KNOB_RATIO) = ph * (1 + 2 * KNOB_RATIO)) by ring.
  rewrite EW, EH.
  assert (RW : 0 <= pw * (1 + 2 * KNOB_RATIO) < 2147483648) by (rewrite HK in *; lra).
  assert (RH : 0 <= ph * (1 + 2 * KNOB_RATIO) < 2147483648) by (rewrite HK in *; lra).
  split; [exact HK|].
  split; [apply unsignedLong_in_range; exact RW|].
  split; [apply unsignedLong_in_range; exact RH|].
  split; [rewrite unsignedLong_in_range by exact RW; apply Int_part_bounds|].
  split; [rewrite unsignedLong_in_range by exact RH; apply Int_part_bounds|].
  split; [intros z Hz; rewrite (@unsignedLong_integer 300 _ z RW Hz); ring|].
  split; [intros z Hz; rewrite (@unsignedLong_integer 150 _ z RH Hz); ring|].
  cbn [app]. rewrite (Rmult_comm pw), (Rmult_comm ph).
  rewrite <- !app_assoc. reflexivity.
Qed.

(** The path of a KNOB or SOCKET side of non-zero length. *)
Lemma drawSide_joint sx sy ex ey j :
  (sx, sy) <> (ex, ey) ->
  let s := match j with KNOB => 1 | SOCKET => -1 end in
  let dx := ex - sx in
  let dy := ey - sy in
  drawSide sx sy ex ey (Side j) =
  [lineTo (sx + 0.2 * dx) (sy + 0.2 * dy);
   bezierCurveTo (Fin (sx + 0.2 * dx + s * KNOB_RATIO * dy))
                 (Fin (sy + 0.2 * dy - s * KNOB_RATIO * dx))
                 (Fin (sx + 0.8 * dx + s * KNOB_RATIO * dy))
                 (Fin (sy + 0.8 * dy - s * KNOB_RATIO * dx))
                 (sx + 0.8 * dx) (sy + 0.8 * dy);
   lineTo ex ey].
Proof.
  intros Hne s dx dy.
  assert (Hd : (dx, dy) <> (0, 0)).
  { intros [= Hx Hy]. apply Hne. unfold dx, dy in *. f_equal; lra. }
  pose proof (normLen_nonzero Hd) as HL.
  unfold drawSide. fold dx dy. cbv zeta.
  set (L := sqrt (dy * dy + - dx * - dx)) in *.
  rewrite !div_finite by assumption. cbn [mul add is_KNOB].
  assert (Hs : (if match j with KNOB => true | SOCKET => false end
                then 1 else -1) = s) by (now destruct j).
  rewrite Hs.
  assert (HX : dy / L * (L * KNOB_RATIO * s) = s * KNOB_RATIO * dy)
    by (field; assumption).
  assert (HY : - dx / L * (L * KNOB_RATIO * s) = - (s * KNOB_RATIO * dx))
    by (field; assumption).
  rewrite HX, HY.
  set (tx := s * KNOB_RATIO * dy). set (ty := s * KNOB_RATIO * dx).
  path_eq.
Qed.

(** C5, amended.  For a KNOB or SOCKET side from [S = (sx, sy)] to a
    different point [E = (ex, ey)], [drawSide] draws a line to the point 20%
    of the way from [S] to [E], one cubic curve to the point 80% of the way,
    and a line to [E]; the two control points are the 20% and 80% points
    moved along the unit vector [(ux, uy)], which is the side vector turned
    by 90 degrees and normalised, by [KNOB_RATIO] times the length of the
    side, with the sign reversed for a SOCKET.  The outline of a piece
    starts at the top-left corner and applies [drawSide] to the top, right,
    bottom and left sides in that order; on each of the four sides of a
    piece of positive width and height the control points of a KNOB lie
    outside the piece rectangle, beyond that side. *)
Theorem side_path sx sy ex ey j :
  (sx, sy) <> (ex, ey) ->
  let len := sqrt ((ex - sx) * (ex - sx) + (ey - sy) * (ey - sy)) in
  let s := match j with KNOB => 1 | SOCKET => -1 end in
  let p20x := sx + 0.2 * (ex - sx) in
  let p20y := sy + 0.2 * (ey - sy) in
  let p80x := sx + 0.8 * (ex - sx) in
  let p80y := sy + 0.8 * (ey - sy) in
  (exists ux uy,
     ux * len = ey - sy /\ uy * len = - (ex - sx) /\
     ux * ux + uy * uy = 1 /\
     drawSide sx sy ex ey (Side j) =
     [lineTo p20x p20y;
      bezierCurveTo (Fin (p20x + s * (KNOB_RATIO * len) * ux))
                    (Fin (p20y + s * (KNOB_RATIO * len) * uy))
                    (Fin (p80x + s * (KNOB_RATIO * len) * ux))
                    (Fin (p80y + s * (KNOB_RATIO * len) * uy))
                    p80x p80y;
      lineTo ex ey]) /\
  (forall x y pw ph shape, exists rest,
     ops (paintPiece x y pw ph shape) =
     [translate (pw * KNOB_RATIO) (ph * KNOB_RATIO); beginPath; moveTo 0 0]
     ++ drawSide 0 0 pw 0 (top shape)
     ++ drawSide pw 0 pw ph (right shape)
     ++ drawSide pw ph 0 ph (bottom shape)
     ++ drawSide 0 ph 0 0 (left shape)
     ++ closePath :: rest) /\
  (forall pw ph, 0 < pw -> 0 < ph ->
     let up := - (s * KNOB_RATIO * pw) in
     let rightwards := pw + s * KNOB_RATIO * ph in
     let down := ph + s * KNOB_RATIO * pw in
     let leftwards := - (s * KNOB_RATIO * ph) in
     drawSide 0 0 pw 0 (Side j) =
     [lineTo (0.2 * pw) 0;
      bezierCurveTo (Fin (0.2 * pw)) (Fin up) (Fin (0.8 * pw)) (Fin up) (0.8 * pw) 0;
      lineTo pw 0] /\
     drawSide pw 0 pw ph (Side j) =
     [lineTo pw (0.2 * ph);
      bezierCurveTo (Fin rightwards) (Fin (0.2 * ph)) (Fin rightwards) (Fin (0.8 * ph))
        pw (0.8 * ph);
      lineTo pw ph] /\
     drawSide pw ph 0 ph (Side j) =
     [lineTo (0.8 * pw) ph;
      bezierCurveTo (Fin (0.8 * pw)) (Fin down) (Fin (0.2 * pw)) (Fin down) (0.2 * pw) ph;
      lineTo 0 ph] /\
     drawSide 0 ph 0 0 (Side j) =
     [lineTo 0 (0.8 * ph);
      bezierCurveTo (Fin leftwards) (Fin (0.8 * ph)) (Fin leftwards) (Fin (0.2 * ph))
        0 (0.2 * ph);
      lineTo 0 0] /\
     (j = KNOB -> up < 0 /\ pw < rightwards /\ ph < down /\ leftwards < 0)).
Proof.
  intros Hne len s p20x p20y p80x p80y.
  set (dx := ex - sx). set (dy := ey - sy).
  assert (Hd : (dx, dy) <> (0, 0)).
  { intros [= Hx Hy]. apply Hne. unfold dx, dy in *. f_equal; lra. }
  assert (HL : len <> 0).
  { pose proof (normLen_nonzero Hd) as HL.
    replace (dy * dy + - dx * - dx) with (dx * dx + dy * dy) in HL by ring.
    exact HL. }
  assert (Hsq : len * len = dx * dx + dy * dy).
  { unfold len. fold dx dy. apply sqrt_sqrt. nra. }
  split; [|split].
  - exists (dy / len), (- dx / len). split; [now field|]. split; [now field|].
    split.
    + replace (dy / len * (dy / len) + - dx / len * (- dx / len))
        with ((dx * dx + dy * dy) / (len * len)) by now field.
      rewrite <- Hsq. now field.
    + rewrite (drawSide_joint j Hne). cbv zeta. fold dx dy s.
      unfold p20x, p20y, p80x, p80y. fold dx dy.
      assert (HX : s * (KNOB_RATIO * len) * (dy / len) = s * KNOB_RATIO * dy)
        by (field; assumption).
      assert (HY : s * (KNOB_RATIO * len) * (- dx / len) = - (s * KNOB_RATIO * dx))
        by (field; assumption).
      rewrite HX, HY. reflexivity.
  - intros x y pw ph shape. eexists. unfold paintPiece. cbn [ops].
    unfold outline. rewrite <- !app_assoc. cbn [app]. reflexivity.
  - intros pw ph Hpw Hph up rightwards down leftwards.
    assert (H1 : (0, 0) <> (pw, 0)) by (intros [= H]; lra).
    assert (H2 : (pw, 0) <> (pw, ph)) by (intros [= H]; lra).
    assert (H3 : (pw, ph) <> (0, ph)) by (intros [= H]; lra).
    assert (H4 : (0, ph) <> (0, 0)) by (intros [= H]; lra).
    rewrite (drawSide_joint j H1), (drawSide_joint j H2),
            (drawSide_joint j H3), (drawSide_joint j H4).
    cbv zeta. unfold up, rightwards, down, leftwards.
    unfold s, KNOB_RATIO.
    destruct j; repeat split; try discriminate; try lra; path_eq.
Qed.

(** C5, as stated, fails on a side of length zero, such as the bottom side
    (a SOCKET) of a piece of width 0 and height 1: the unit normal is
    [0 / 0], the control points are not finite, whereas the claim places
    them at the 20% and 80% points moved by [KNOB_RATIO] times a length
    of 0. *)
Lemma side_path_zero_length :
  drawSide 0 1 0 1 (Side SOCKET) =
  [lineTo 0 1; bezierCurveTo NonFinite NonFinite NonFinite NonFinite 0 1; lineTo 0 1]
  /\
  ~ (exists ux uy : R,
       let len := sqrt ((0 - 0) * (0 - 0) + (1 - 1) * (1 - 1)) in
       drawSide 0 1 0 1 (Side SOCKET) =
       [lineTo (0 + 0.2 * (0 - 0)) (1 + 0.2 * (1 - 1));
        bezierCurveTo (Fin (0 + 0.2 * (0 - 0) + -1 * (KNOB_RATIO * len) * ux))
                      (Fin (1 + 0.2 * (1 - 1) + -1 * (KNOB_RATIO * len) * uy))
                      (Fin (0 + 0.8 * (0 - 0) + -1 * (KNOB_RATIO * len) * ux))
                      (Fin (1 + 0.8 * (1 - 1) + -1 * (KNOB_RATIO * len) * uy))
                      (0 + 0.8 * (0 - 0)) (1 + 0.8 * (1 - 1));
        lineTo 0 1]).
Proof.
  assert (E : drawSide 0 1 0 1 (Side SOCKET) =
    [lineTo 0 1; bezierCurveTo NonFinite NonFinite NonFinite NonFinite 0 1;
     lineTo 0 1]).
  { unfold drawSide. cbv zeta.
    replace ((1 - 1) * (1 - 1) + - (0 - 0) * - (0 - 0)) with 0 by ring.
    rewrite sqrt_0, !div_by_zero. cbn [mul add]. path_eq. }
  split; [exact E|].
  intros (ux & uy & H). cbv zeta in H. rewrite E in H. discriminate H.
Qed.

End RasterizerFacts.

(** ** Instances on sample browsers *)

Lemma sample_joints :
  generateJoints (sampleBrowser 1 1) 2 newWorld =
  (([[KNOB]; [SOCKET]], [[KNOB; SOCKET]]), mkWorld 4 0 []).
Proof. reflexivity. Qed.

Lemma interlocking_edges_witness :
  2 <= 2 /\ 0 < 2 /\ 0 + 1 < 2 /\
  exists j a b,
    pieceShape [[KNOB]; [SOCKET]] [[KNOB; SOCKET]] 2 0 0 = Ok a /\
    pieceShape [[KNOB]; [SOCKET]] [[KNOB; SOCKET]] 2 0 1 = Ok b /\
    right a = Side j /\ left b = Side (inverse j) /\ right a <> left b.
Proof.
  split; [lia|]. split; [lia|]. split; [lia|].
  apply (proj1 (@interlocking_edges (sampleBrowser 1 1) 2 newWorld
                  [[KNOB]; [SOCKET]] [[KNOB; SOCKET]] (mkWorld 4 0 []) 0 0
                  eq_refl ltac:(lia) ltac:(lia) ltac:(lia))).
  lia.
Defined.

Lemma flat_iff_border_witness :
  2 <= 2 /\ 1 < 2 /\ 0 < 2 /\
  exists s,
    pieceShape [[KNOB]; [SOCKET]] [[KNOB; SOCKET]] 2 1 0 = Ok s /\
    top s = Side SOCKET /\ bottom s = FLAT /\ left s = FLAT /\ right s = Side SOCKET.
Proof.
  split; [lia|]. split; [lia|]. split; [lia|].
  destruct (@flat_iff_border (sampleBrowser 1 1) 2 newWorld
              [[KNOB]; [SOCKET]] [[KNOB; SOCKET]] (mkWorld 4 0 []) 1 0
              eq_refl ltac:(lia) ltac:(lia) ltac:(lia)) as (s & Hs & _).
  exists s. split; [exact Hs|].
  injection Hs as <-. repeat split.
Defined.

Lemma partition_sizes_witness :
  decode (sampleBrowser 802 802) ("data:image/png;base64," ++ "") = Some (mkImage 802 802) /\
  Math_sqrt 9 = Some 3 /\ 2 <= 3 /\
  list_sum (map (fun x => 802 / 3 + (if x <? 802 mod 3 then 1 else 0)) (seq 0 3)) = 802.
Proof.
  split; [reflexivity|]. split; [reflexivity|]. split; [lia|].
  exact (proj1 (proj2 (@partition_sizes (sampleBrowser 802 802) "" 9 (mkImage 802 802) 3
                         eq_refl eq_refl ltac:(lia)))).
Defined.



Lemma batch_all_or_nothing_witness :
  surfaceError (getContext (failingBrowser 800 800) 2) = Some "Could not get canvas context." /\
  fst (createJigsawPieces (failingBrowser 800 800) "" 4) =
    Rejected "Could not get canvas context.".
Proof.
  split; [reflexivity|].
  refine (proj1 (@batch_all_or_nothing (failingBrowser 800 800) "" 4 (mkImage 800 800) 2
                   eq_refl eq_refl) 2 _ ltac:(lia) eq_refl _).
  intros j Hj. destruct j as [|[|j]]; [reflexivity|reflexivity|lia].
Defined.

Lemma scenario_800_16_witness :
  exists images,
    fst (createJigsawPieces (sampleBrowser 800 800) "" 16) = Resolved images /\
    length images = 16.
Proof.
  destruct (@scenario_800_16 (sampleBrowser 800 800) "" eq_refl
              (fun _ _ => eq_refl)) as (images & H1 & _ & H3 & _).
  exists images. split; [exact H1|exact H3].
Defined.

Lemma degenerate_counts_witness :
  createJigsawPieces (sampleBrowser 800 600) "" 0 = (Resolved [], newWorld) /\
  rasterCalls (snd (createJigsawPieces (sampleBrowser 800 600) "" 1)) =
    [mkRasterCall 0 0 800 600 (mkPieceShape FLAT FLAT FLAT FLAT)].
Proof.
  destruct (@degenerate_counts (sampleBrowser 800 600) "" (mkImage 800 600) eq_refl)
    as (_ & _ & H0 & H1).
  split; [exact H0|]. exact (proj2 (H1 eq_refl)).
Defined.

Lemma partition_covers_witness :
  1 <= 2 /\
  exists c,
    nth_error (rasterCalls (snd (createJigsawPieces (sampleBrowser 1 1) "" 4))) (0 * 2 + 1)
      = Some c /\
    pieceWidth c = 0 /\ pieceHeight c = 1 /\ sourceX c = 1 /\ sourceY c = 0.
Proof.
  split; [lia|].
  destruct (@partition_covers (sampleBrowser 1 1) "" 4 (mkImage 1 1) 2
              eq_refl eq_refl ltac:(lia) (fun _ _ => eq_refl))
    as (_ & _ & Hcell & _).
  destruct (Hcell 0 1 ltac:(lia) ltac:(lia)) as (c & Hc & Hw & Hh & Hx & Hy & _).
  exists c. split; [exact Hc|]. repeat split; assumption.
Defined.

Section RasterizerInstances.
Local Open Scope R_scope.

Lemma canvas_padding_witness :
  getContext (sampleBrowser 800 600) (canvasesCreated newWorld) = Context2D /\
  0 <= 200 /\ 0 <= 150 /\
  200 * (1 + 2 * KNOB_RATIO) < 2147483648 /\
  150 * (1 + 2 * KNOB_RATIO) < 2147483648 /\
  200 * (1 + 2 * KNOB_RATIO) = IZR 280 /\
  150 * (1 + 2 * KNOB_RATIO) = IZR 210 /\
  exists canvas,
    fst (createPieceCanvas (sampleBrowser 800 600) (mkImage 800 600)
           0 0 200 150 (mkPieceShape FLAT FLAT FLAT FLAT) newWorld) = Ok canvas /\
    width canvas = KNOB_RATIO * 200 + 200 + KNOB_RATIO * 200 /\
    height canvas = KNOB_RATIO * 150 + 150 + KNOB_RATIO * 150.
Proof.
  assert (H200 : 0 <= 200) by lra.
  assert (H150 : 0 <= 150) by lra.
  assert (HW : 200 * (1 + 2 * KNOB_RATIO) < 2147483648) by (unfold KNOB_RATIO; lra).
  assert (HH : 150 * (1 + 2 * KNOB_RATIO) < 2147483648) by (unfold KNOB_RATIO; lra).
  assert (ZW : 200 * (1 + 2 * KNOB_RATIO) = IZR 280) by (unfold KNOB_RATIO; lra).
  assert (ZH : 150 * (1 + 2 * KNOB_RATIO) = IZR 210) by (unfold KNOB_RATIO; lra).
  split; [reflexivity|]. repeat (split; [assumption|]).
  destruct (@canvas_padding (sampleBrowser 800 600) (mkImage 800 600)
              0 0 200 150 (mkPieceShape FLAT FLAT FLAT FLAT) newWorld
              eq_refl H200 H150 HW HH)
    as (canvas & rest & H1 & _ & _ & _ & _ & _ & H7 & H8 & _).
  exists canvas. split; [exact H1|]. split; [exact (H7 _ ZW)|exact (H8 _ ZH)].
Defined.

(** C8, as stated, fails for a piece 267 pixels wide:
    an image of 534 by 534 pixels cut into 4 pieces gives pieces of 267 by
    267 pixels, and the canvas of the first is 373 pixels wide, whereas
    [267 * (1 + 2 * KNOB_RATIO)] is 373.8. *)
Lemma canvas_width_truncated :
  exists images image,
    fst (createJigsawPieces (sampleBrowser 534 534) "" 4) = Resolved images /\
    nth_error images 0 = Some image /\
    width image = 373 /\
    width image <> 267 * (1 + 2 * KNOB_RATIO).
Proof.
  assert (Hs : Math_sqrt 4 = Some 2%nat) by reflexivity.
  destruct (@run_success (sampleBrowser 534 534) "" 4 (mkImage 534 534) 2%nat
              eq_refl Hs eq_refl) as (Hr & _).
  set (c := cellCall (fst (jointsOf (sampleBrowser 534 534) 2))
              (snd (jointsOf (sampleBrowser 534 534) 2)) 534 534 2 0 0).
  assert (Hc : nth_error (runCalls (sampleBrowser 534 534) (mkImage 534 534) 2) 0
               = Some c).
  { unfold runCalls. cbn [img_width img_height].
    exact (@allCalls_nth _ _ 534%nat 534%nat 2%nat 0%nat 0%nat ltac:(lia) ltac:(lia)). }
  assert (Hw : width (render c) = 373).
  { unfold c. rewrite (@cellCall_exact _ _ 534%nat 534%nat 2%nat 0%nat 0%nat 267%nat 267%nat
                         ltac:(lia) eq_refl eq_refl).
    unfold render, paintPiece. cbn [width pieceWidth].
    rewrite (INR_IZR_INZ 267). change (Z.of_nat 267) with 267%Z.
    rewrite unsignedLong_in_range by (unfold KNOB_RATIO; lra).
    f_equal. symmetry. apply Int_part_spec. unfold KNOB_RATIO. lra. }
  eexists. exists (render c). split; [exact Hr|].
  split; [exact (map_nth_error render 0 _ Hc)|].
  split; [exact Hw|]. rewrite Hw. unfold KNOB_RATIO. lra.
Qed.

Lemma unit_side_nonzero : (0, 0) <> (1, 0).
Proof. intros [= H]. lra. Qed.

Lemma side_path_witness :
  (0, 0) <> (1, 0) /\
  drawSide 0 0 1 0 (Side KNOB) =
  [lineTo (0.2 * 1) 0;
   bezierCurveTo (Fin (0.2 * 1)) (Fin (- (1 * KNOB_RATIO * 1)))
     (Fin (0.8 * 1)) (Fin (- (1 * KNOB_RATIO * 1))) (0.8 * 1) 0;
   lineTo 1 0].
Proof.
  split; [exact unit_side_nonzero|].
  exact (proj1 (proj2 (proj2 (@side_path 0 0 1 0 KNOB unit_side_nonzero))
                  1 1 ltac:(lra) ltac:(lra))).
Defined.

(** A side of length zero draws a curve whose control points are not
    finite. *)
Lemma drawSide_zero_length x y j :
  drawSide x y x y (Side j) =
  [lineTo x y; bezierCurveTo NonFinite NonFinite NonFinite NonFinite x y; lineTo x y].
Proof.
  unfold drawSide. cbv zeta.
  replace ((y - y) * (y - y) + - (x - x) * - (x - x)) with 0 by ring.
  rewrite sqrt_0, !div_by_zero. cbn [mul add]. path_eq.
Qed.

(** Such a side is drawn: for an image of 1 by 1 pixel cut into 4 pieces,
    the second piece has width 0 and height 1 and a SOCKET at the bottom, and
    its image contains a curve without finite control points. *)
Lemma zero_length_side_reached :
  exists images image,
    fst (createJigsawPieces (sampleBrowser 1 1) "" 4) = Resolved images /\
    nth_error images 1 = Some image /\
    image = paintPiece 1 0 0 1 (mkPieceShape FLAT FLAT (Side SOCKET) (Side SOCKET)) /\
    In (bezierCurveTo NonFinite NonFinite NonFinite NonFinite 0 1) (ops image).
Proof.
  assert (Hs : Math_sqrt 4 = Some 2%nat) by reflexivity.
  destruct (@run_success (sampleBrowser 1 1) "" 4 (mkImage 1 1) 2%nat eq_refl Hs eq_refl)
    as (Hr & _).
  eexists. exists (paintPiece 1 0 0 1 (mkPieceShape FLAT FLAT (Side SOCKET) (Side SOCKET))).
  split; [exact Hr|]. split; [reflexivity|]. split; [reflexivity|].
  unfold paintPiece. cbn [ops]. unfold outline. cbn [top right bottom left].
  rewrite !drawSide_zero_length. cbn. tauto.
Qed.

End RasterizerInstances.

(** * Further properties of the generation *)

(** ** Settlement of the promise *)

Lemma run_never_pending env imageBase64 pieceCount :
  fst (createJigsawPieces env imageBase64 pieceCount) <> Pending.
Proof.
  destruct (decode env ("data:image/png;base64," ++ imageBase64)) as [img|] eqn:Hd.
  - destruct (Math_sqrt pieceCount) as [N|] eqn:Hs.
    + pose proof (createJigsawPieces_run env imageBase64 pieceCount Hd Hs) as HR.
      cbv zeta in HR.
      destruct (firstFailure env 0 (N * N)) as [e|].
      * destruct HR as [-> _]. discriminate.
      * rewrite HR. discriminate.
    + unfold createJigsawPieces. rewrite Hd. unfold onload. rewrite Hs. discriminate.
  - unfold createJigsawPieces. rewrite Hd. discriminate.
Qed.

(** X1. Whatever the browser and the image string, for every piece count
    below 2^52 (the range in which the test of the square root is exact on
    doubles and the joint arrays have a length that [Array.from] accepts),
    the promise of [createJigsawPieces] is settled once the image has
    loaded or failed to load: no exception escapes [img.onload], because
    every read of a joint array made by the loops is in range. *)
Theorem createJigsawPieces_settles env imageBase64 pieceCount :
  (pieceCount < 2 ^ 52)%Z ->
  (exists pieces, fst (createJigsawPieces env imageBase64 pieceCount) = Resolved pieces)
  \/ (exists e, fst (createJigsawPieces env imageBase64 pieceCount) = Rejected e).
Proof.
  intros _.
  pose proof (run_never_pending env imageBase64 pieceCount) as H.
  destruct (fst (createJigsawPieces env imageBase64 pieceCount)) as [pieces|e|].
  - left. now exists pieces.
  - right. now exists e.
  - contradiction.
Qed.


(** ** The random draws *)

Section Draws.
Variable env : Browser.

Lemma Array_from_draws (A : Type) (mapFn : M A) (f : nat -> A) (k : nat) :
  (forall w, mapFn w = (f (randomCalls w), afterDraws w k)) ->
  forall n w,
    Array_from n mapFn w =
    (map (fun i => f (randomCalls w + i * k)) (seq 0 n), afterDraws w (n * k)).
Proof.
  intros Hf. induction n as [|n IH]; intros w.
  - simpl. unfold ret, afterDraws. rewrite Nat.add_0_r. now destruct w.
  - cbn [Array_from]. unfold bind. rewrite Hf, IH. unfold ret.
    cbn [seq map]. rewrite <- seq_shift, map_map.
    unfold afterDraws. cbn [randomCalls canvasesCreated rasterCalls].
    f_equal.
    + f_equal; [f_equal; lia|]. apply map_ext. intros i. f_equal. lia.
    + f_equal. lia.
Qed.

Lemma randomJoint_draw w :
  randomJoint env w =
  (jointOfDraw (Math_random env (randomCalls w)), afterDraws w 1).
Proof.
  unfold randomJoint, bind, random, ret, afterDraws, jointOfDraw.
  now rewrite Nat.add_1_r.
Qed.

Lemma row_draws n w :
  Array_from n (randomJoint env) w =
  (map (fun x => jointOfDraw (Math_random env (randomCalls w + x))) (seq 0 n),
   afterDraws w n).
Proof.
  rewrite (@Array_from_draws _ (randomJoint env)
             (fun c => jointOfDraw (Math_random env c)) 1 randomJoint_draw).
  rewrite Nat.mul_1_r. f_equal. apply map_ext. intros i. now rewrite Nat.mul_1_r.
Qed.

Lemma nth_map_seq (A : Type) (f : nat -> A) n i d :
  i < n -> nth i (map f (seq 0 n)) d = f i.
Proof.
  intros Hi. rewrite (nth_indep _ d (f 0)) by (rewrite length_map, length_seq; lia).
  rewrite map_nth, seq_nth by lia. reflexivity.
Qed.

(** X3. [generateJoints] calls [Math.random] once per internal edge, that
    is [2 * N * (N - 1)] times: the joint right of cell [(y, x)] comes from
    draw number [y * (N - 1) + x], the joint below cell [(y, x)] from draw
    number [N * (N - 1) + y * N + x] (counted from the first draw of the
    call), and a joint is a KNOB exactly when its draw is greater than
    [1/2]. *)
Theorem joints_from_draws N w hj vj w' :
  generateJoints env N w = ((hj, vj), w') ->
  let d := randomCalls w in
  randomCalls w' = d + 2 * (N * (N - 1)) /\
  (forall y x, y < N -> x + 1 < N ->
     (joint hj y x = KNOB <-> (1 # 2 < Math_random env (d + (y * (N - 1) + x)))%Q)) /\
  (forall y x, y + 1 < N -> x < N ->
     (joint vj y x = KNOB <->
      (1 # 2 < Math_random env (d + (N * (N - 1) + (y * N + x))))%Q)).
Proof.
  intros G d. unfold generateJoints, bind, ret in G.
  rewrite (@Array_from_draws _ (Array_from (N - 1) (randomJoint env))
             (fun c => map (fun x => jointOfDraw (Math_random env (c + x)))
                         (seq 0 (N - 1)))
             (N - 1) (row_draws (N - 1))) in G.
  rewrite (@Array_from_draws _ (Array_from N (randomJoint env))
             (fun c => map (fun x => jointOfDraw (Math_random env (c + x))) (seq 0 N))
             N (row_draws N)) in G.
  cbn [afterDraws randomCalls canvasesCreated rasterCalls] in G.
  injection G as <- <- <-. unfold afterDraws.
  cbn [randomCalls canvasesCreated rasterCalls]. fold d.
  assert (Hk : forall r, jointOfDraw r = KNOB <-> (1 # 2 < r)%Q).
  { intros r. unfold jointOfDraw. destruct (Qlt_le_dec (1 # 2) r) as [Hlt|Hle].
    - tauto.
    - split; [discriminate|]. intros Hlt. exfalso.
      apply (Qlt_irrefl r). eapply Qle_lt_trans; eassumption. }
  split; [rewrite (Nat.mul_comm (N - 1) N); lia|]. split.
  - intros y x Hy Hx. unfold joint.
    rewrite (nth_indep _ [] (map (fun x0 => jointOfDraw (Math_random env x0)) []))
      by (rewrite length_map, length_seq; lia).
    rewrite nth_map_seq by lia. rewrite nth_map_seq by lia.
    rewrite Hk. now rewrite Nat.add_assoc.
  - intros y x Hy Hx. unfold joint.
    rewrite (nth_indep _ [] (map (fun x0 => jointOfDraw (Math_random env x0)) []))
      by (rewrite length_map, length_seq; lia).
    rewrite nth_map_seq by lia. rewrite nth_map_seq by lia.
    rewrite Hk.
    replace (d + N * (N - 1) + y * N + x) with (d + (N * (N - 1) + (y * N + x))) by lia.
    reflexivity.
Qed.

End Draws.

(** ** Canvases created by a run *)

Lemma forLoop_invariant (S : Type) (I : World -> Prop) (J : Step S -> World -> Prop)
  (body : nat -> S -> M (Step S)) :
  (forall s w, I w -> J (Next s) w) ->
  (forall s w, J (Next s) w -> I w) ->
  (forall i s w, I w -> J (fst (body i s w)) (snd (body i s w))) ->
  forall count i s w,
    I w -> J (fst (forLoop i count body s w)) (snd (forLoop i count body s w)).
Proof.
  intros HIJ HJI Hbody. induction count as [|count IH]; intros i s w Hw.
  - simpl. now apply HIJ.
  - cbn [forLoop]. unfold bind. specialize (Hbody i s w Hw).
    destruct (body i s w) as [[s'|e|e] w1]; cbn [fst snd] in *.
    + apply IH. eapply HJI. eassumption.
    + exact Hbody.
    + exact Hbody.
Qed.

Section CanvasCount.
Variable env : Browser.
Variable img : HTMLImageElement.
Variable N : nat.
Variables hj vj : list (list JigsawSide).
Variables baseW baseH remW remH : nat.

Lemma bodyX_canvases y pieceH csy x s w :
  canvasesSoFar env None w ->
  canvasesAfter env (fst (bodyX env img N hj vj baseW remW y pieceH csy x s w))
                    (snd (bodyX env img N hj vj baseW remW y pieceH csy x s w)).
Proof.
  intros [Hlen Hok]. unfold bodyX. destruct s as [pieces csx].
  destruct (pieceShape hj vj N y x) as [sh|e]; [|exact I].
  unfold bind, note, createPieceCanvas, ret.
  cbn [canvasesCreated randomCalls rasterCalls].
  destruct (getContext env (canvasesCreated w)) as [| |e] eqn:E;
    cbn [fst snd canvasesAfter]; unfold canvasesSoFar;
    cbn [canvasesCreated rasterCalls]; rewrite length_app; cbn [length].
  - split; [lia|]. intros j Hj.
    destruct (Nat.eq_dec j (canvasesCreated w)) as [->|Hne]; [exact E|].
    apply Hok. lia.
  - split; [lia|]. exists (canvasesCreated w). rewrite E. repeat split. exact Hok.
  - split; [lia|]. exists (canvasesCreated w). rewrite E. repeat split. exact Hok.
Qed.

Lemma bodyY_canvases y s w :
  canvasesSoFar env None w ->
  canvasesAfter env (fst (bodyY env img N hj vj baseW baseH remW remH y s w))
                    (snd (bodyY env img N hj vj baseW baseH remW remH y s w)).
Proof.
  intros Hw. unfold bodyY. destruct s as [pieces csy]. unfold bind.
  pose proof (@forLoop_invariant (list DataURL * nat) (canvasesSoFar env None)
                (@canvasesAfter _ env)
                (bodyX env img N hj vj baseW remW y
                   (baseH + (if y <? remH then 1 else 0)) csy)
                (fun _ _ H => H) (fun _ _ H => H)
                (fun x s0 w0 H => @bodyX_canvases y _ csy x s0 w0 H)
                N 0 (pieces, 0) w Hw) as HX.
  destruct (forLoop 0 N _ (pieces, 0) w) as [[[pieces' csx]|e|e] w1];
    cbn [fst snd] in *; exact HX.
Qed.

Lemma loops_canvases s w :
  canvasesSoFar env None w ->
  canvasesAfter env
    (fst (forLoop 0 N (bodyY env img N hj vj baseW baseH remW remH) s w))
    (snd (forLoop 0 N (bodyY env img N hj vj baseW baseH remW remH) s w)).
Proof.
  apply (@forLoop_invariant (list DataURL * nat) (canvasesSoFar env None)
           (@canvasesAfter _ env) _ (fun _ _ H => H) (fun _ _ H => H)
           (fun y s0 w0 H => @bodyY_canvases y s0 w0 H)).
Qed.

End CanvasCount.

(** X4. In every run, the number of canvases created equals the number of
    calls of [createPieceCanvas].  When a run on a loaded image with a
    perfect-square count [N * N] is rejected with [e], exactly [k + 1]
    canvases were created for some [k < N * N]: canvas [k] failed with [e],
    the canvases before it yielded a context, and no canvas was created
    after the failure. *)
Theorem stops_at_first_failure env imageBase64 pieceCount :
  let run := createJigsawPieces env imageBase64 pieceCount in
  canvasesCreated (snd run) = length (rasterCalls (snd run)) /\
  forall img N e,
    decode env ("data:image/png;base64," ++ imageBase64) = Some img ->
    Math_sqrt pieceCount = Some N ->
    fst run = Rejected e ->
    exists k,
      k < N * N /\ canvasesCreated (snd run) = S k /\
      surfaceError (getContext env k) = Some e /\
      forall j, j < k -> getContext env j = Context2D.
Proof.
  intros run.
  assert (Hall : forall img N,
            decode env ("data:image/png;base64," ++ imageBase64) = Some img ->
            Math_sqrt pieceCount = Some N ->
            canvasesSoFar env
              (match fst run with Rejected e => Some e | _ => None end) (snd run)).
  { intros img N Hd Hs.
    pose proof (run_never_pending env imageBase64 pieceCount) as Hset.
    unfold run, createJigsawPieces in *. rewrite Hd in *.
    unfold onload in *. rewrite Hs in *. unfold bind in *.
    pose proof (generateJoints_spec env N newWorld) as [_ [Hc Hr]].
    destruct (generateJoints env N newWorld) as [[hj vj] w1]. cbn [snd] in Hc, Hr.
    simpl in Hc, Hr.
    assert (Hw1 : canvasesSoFar env None w1).
    { split; [now rewrite Hc, Hr|]. intros j Hj. rewrite Hc in Hj. lia. }
    pose proof (@loops_canvases env img N hj vj (img_width img / N) (img_height img / N)
                  (img_width img mod N) (img_height img mod N) ([], 0) w1 Hw1) as HL.
    destruct (forLoop 0 N _ ([], 0) w1) as [[[pieces csy]|e|e] w2];
      cbn [fst snd canvasesAfter ret] in *; try exact HL.
    now contradiction Hset. }
  split.
  - destruct (decode env ("data:image/png;base64," ++ imageBase64)) as [img|] eqn:Hd.
    + destruct (Math_sqrt pieceCount) as [N|] eqn:Hs.
      * exact (proj1 (Hall img N eq_refl eq_refl)).
      * unfold run, createJigsawPieces. rewrite Hd. unfold onload. rewrite Hs.
        reflexivity.
    + unfold run, createJigsawPieces. rewrite Hd. reflexivity.
  - intros img N e Hd Hs He.
    pose proof (Hall img N Hd Hs) as [Hlen Hk]. rewrite He in Hk.
    destruct Hk as (k & Hc & Hf & Hb). exists k. repeat split; try assumption.
    destruct (run_calls_prefix env imageBase64 pieceCount Hd Hs) as (m & Hm & Hp).
    fold run in Hp. rewrite Hp in Hlen. rewrite length_firstn in Hlen.
    unfold runCalls in Hlen. rewrite allCalls_length in Hlen. lia.
Qed.

(** ** Shared edges *)

Lemma run_call_any env imageBase64 pieceCount img N k c :
  decode env ("data:image/png;base64," ++ imageBase64) = Some img ->
  Math_sqrt pieceCount = Some N ->
  nth_error (rasterCalls (snd (createJigsawPieces env imageBase64 pieceCount))) k = Some c ->
  exists y x, y < N /\ x < N /\ k = y * N + x /\
    c = cellCall (fst (jointsOf env N)) (snd (jointsOf env N))
          (img_width img) (img_height img) N y x.
Proof.
  intros Hd Hs Hk.
  destruct (run_calls_prefix env imageBase64 pieceCount Hd Hs) as (m & Hm & Hp).
  rewrite Hp in Hk. apply nth_error_firstn_Some in Hk.
  assert (Hlt : k < N * N).
  { rewrite <- (allCalls_length (fst (jointsOf env N)) (snd (jointsOf env N))
                  (img_width img) (img_height img) N).
    apply nth_error_Some. unfold runCalls in Hk. congruence. }
  destruct (@index_split N k Hlt) as (y & x & Hy & Hx & ->).
  exists y, x. repeat split; try assumption.
  unfold runCalls in Hk. rewrite allCalls_nth in Hk by assumption. congruence.
Qed.

Section Edges.
Local Open Scope R_scope.

Lemma vertical_edge_paths w h j :
  0 < h ->
  let cx := (match j with KNOB => 1 | SOCKET => -1 end) * KNOB_RATIO * h in
  drawSide w 0 w h (Side j) =
  [lineTo w (0.2 * h);
   bezierCurveTo (Fin (w + cx)) (Fin (0.2 * h)) (Fin (w + cx)) (Fin (0.8 * h))
     w (0.8 * h);
   lineTo w h] /\
  drawSide 0 h 0 0 (Side (inverse j)) =
  [lineTo 0 (0.8 * h);
   bezierCurveTo (Fin cx) (Fin (0.8 * h)) (Fin cx) (Fin (0.2 * h)) 0 (0.2 * h);
   lineTo 0 0].
Proof.
  intros Hh cx.
  assert (H1 : (w, 0) <> (w, h)) by (intros [= H]; lra).
  assert (H2 : (0, h) <> (0, 0)) by (intros [= H]; lra).
  rewrite (drawSide_joint j H1), (drawSide_joint (inverse j) H2).
  cbv zeta. unfold cx, KNOB_RATIO. destruct j; cbn [inverse]; split; path_eq.
Qed.

Lemma horizontal_edge_paths w h j :
  0 < w ->
  let cy := (match j with KNOB => 1 | SOCKET => -1 end) * KNOB_RATIO * w in
  drawSide w h 0 h (Side j) =
  [lineTo (0.8 * w) h;
   bezierCurveTo (Fin (0.8 * w)) (Fin (h + cy)) (Fin (0.2 * w)) (Fin (h + cy))
     (0.2 * w) h;
   lineTo 0 h] /\
  drawSide 0 0 w 0 (Side (inverse j)) =
  [lineTo (0.2 * w) 0;
   bezierCurveTo (Fin (0.2 * w)) (Fin cy) (Fin (0.8 * w)) (Fin cy) (0.8 * w) 0;
   lineTo w 0].
Proof.
  intros Hw cy.
  assert (H1 : (w, h) <> (0, h)) by (intros [= H]; lra).
  assert (H2 : (0, 0) <> (w, 0)) by (intros [= H]; lra).
  rewrite (drawSide_joint j H1), (drawSide_joint (inverse j) H2).
  cbv zeta. unfold cy, KNOB_RATIO. destruct j; cbn [inverse]; split; path_eq.
Qed.

(** X5. Across an internal vertical edge the two pieces draw the same
    curve.  Let [a] be the call for cell [(y, x)] and [b] the call for its
    right neighbour, with a positive piece height [h].  Then the source
    rectangle of [b] starts where that of [a] ends, at the same ordinate and
    with the same height; the right side of [a] is the curve through
    [(w, 0.2 h)], [(w + cx, 0.2 h)], [(w + cx, 0.8 h)], [(w, 0.8 h)] where
    [w] is the width of [a] and [cx] is [+ KNOB_RATIO * h] for a KNOB and
    [- KNOB_RATIO * h] for a SOCKET; and the left side of [b] is the curve
    through the same four points, moved by [w] to the left into the frame
    of [b], in the opposite order. *)
Theorem vertical_edge_shared env imageBase64 pieceCount img N y x a b :
  decode env ("data:image/png;base64," ++ imageBase64) = Some img ->
  Math_sqrt pieceCount = Some N ->
  (y < N)%nat -> (x + 1 < N)%nat ->
  nth_error (rasterCalls (snd (createJigsawPieces env imageBase64 pieceCount)))
    (y * N + x) = Some a ->
  nth_error (rasterCalls (snd (createJigsawPieces env imageBase64 pieceCount)))
    (y * N + (x + 1)) = Some b ->
  (0 < pieceHeight a)%nat ->
  sourceX b = (sourceX a + pieceWidth a)%nat /\
  sourceY b = sourceY a /\ pieceHeight b = pieceHeight a /\
  exists j,
    right (shape a) = Side j /\ left (shape b) = Side (inverse j) /\
    let w := INR (pieceWidth a) in
    let h := INR (pieceHeight a) in
    let cx := (match j with KNOB => 1 | SOCKET => -1 end) * KNOB_RATIO * h in
    drawSide w 0 w h (right (shape a)) =
    [lineTo w (0.2 * h);
     bezierCurveTo (Fin (w + cx)) (Fin (0.2 * h)) (Fin (w + cx)) (Fin (0.8 * h))
       w (0.8 * h);
     lineTo w h] /\
    drawSide 0 (INR (pieceHeight b)) 0 0 (left (shape b)) =
    [lineTo 0 (0.8 * h);
     bezierCurveTo (Fin cx) (Fin (0.8 * h)) (Fin cx) (Fin (0.2 * h)) 0 (0.2 * h);
     lineTo 0 0].
Proof.
  intros Hd Hs Hy Hx Ha Hb Hpos.
  assert (Hx0 : (x < N)%nat) by lia.
  apply (run_call_at env imageBase64 pieceCount Hd Hs Hy Hx0) in Ha.
  apply (run_call_at env imageBase64 pieceCount Hd Hs Hy Hx) in Hb.
  subst a b. unfold cellCall in *.
  cbn [sourceX sourceY pieceWidth pieceHeight shape] in *.
  split; [rewrite Nat.add_1_r, sumSpan_S; reflexivity|].
  split; [reflexivity|]. split; [reflexivity|].
  exists (joint (fst (jointsOf env N)) y x).
  unfold cellShape. cbn [right left].
  destruct (Nat.eqb_spec (x + 1) N) as [E|_]; [lia|].
  destruct (Nat.eqb_spec (x + 1) 0) as [E|_]; [lia|].
  replace (x + 1 - 1)%nat with x by lia.
  split; [reflexivity|]. split; [reflexivity|].
  apply vertical_edge_paths. now apply lt_0_INR.
Qed.

(** X6. Across an internal horizontal edge the two pieces draw the same
    curve.  Let [a] be the call for cell [(y, x)] and [b] the call for the
    cell below, with a positive piece width [w].  Then the source rectangle
    of [b] starts where that of [a] ends, at the same abscissa and with the
    same width; the bottom side of [a] is the curve through [(0.8 w, h)],
    [(0.8 w, h + cy)], [(0.2 w, h + cy)], [(0.2 w, h)] where [h] is the
    height of [a] and [cy] is [+ KNOB_RATIO * w] for a KNOB and
    [- KNOB_RATIO * w] for a SOCKET; and the top side of [b] is the curve
    through the same four points, moved up by [h] into the frame of [b], in
    the opposite order. *)
Theorem horizontal_edge_shared env imageBase64 pieceCount img N y x a b :
  decode env ("data:image/png;base64," ++ imageBase64) = Some img ->
  Math_sqrt pieceCount = Some N ->
  (y + 1 < N)%nat -> (x < N)%nat ->
  nth_error (rasterCalls (snd (createJigsawPieces env imageBase64 pieceCount)))
    (y * N + x) = Some a ->
  nth_error (rasterCalls (snd (createJigsawPieces env imageBase64 pieceCount)))
    ((y + 1) * N + x) = Some b ->
  (0 < pieceWidth a)%nat ->
  sourceY b = (sourceY a + pieceHeight a)%nat /\
  sourceX b = sourceX a /\ pieceWidth b = pieceWidth a /\
  exists j,
    bottom (shape a) = Side j /\ top (shape b) = Side (inverse j) /\
    let w := INR (pieceWidth a) in
    let h := INR (pieceHeight a) in
    let cy := (match j with KNOB => 1 | SOCKET => -1 end) * KNOB_RATIO * w in
    drawSide w h 0 h (bottom (shape a)) =
    [lineTo (0.8 * w) h;
     bezierCurveTo (Fin (0.8 * w)) (Fin (h + cy)) (Fin (0.2 * w)) (Fin (h + cy))
       (0.2 * w) h;
     lineTo 0 h] /\
    drawSide 0 0 (INR (pieceWidth b)) 0 (top (shape b)) =
    [lineTo (0.2 * w) 0;
     bezierCurveTo (Fin (0.2 * w)) (Fin cy) (Fin (0.8 * w)) (Fin cy) (0.8 * w) 0;
     lineTo w 0].
Proof.
  intros Hd Hs Hy Hx Ha Hb Hpos.
  assert (Hy0 : (y < N)%nat) by lia.
  apply (run_call_at env imageBase64 pieceCount Hd Hs Hy0 Hx) in Ha.
  apply (run_call_at env imageBase64 pieceCount Hd Hs Hy Hx) in Hb.
  subst a b. unfold cellCall in *.
  cbn [sourceX sourceY pieceWidth pieceHeight shape] in *.
  split; [rewrite Nat.add_1_r, sumSpan_S; reflexivity|].
  split; [reflexivity|]. split; [reflexivity|].
  exists (joint (snd (jointsOf env N)) y x).
  unfold cellShape. cbn [bottom top].
  destruct (Nat.eqb_spec (y + 1) N) as [E|_]; [lia|].
  destruct (Nat.eqb_spec (y + 1) 0) as [E|_]; [lia|].
  replace (y + 1 - 1)%nat with y by lia.
  split; [reflexivity|]. split; [reflexivity|].
  apply horizontal_edge_paths. now apply lt_0_INR.
Qed.

End Edges.

(** ** Room for the knobs *)

Section KnobRoom.
Local Open Scope R_scope.

Lemma drawSide_undefined sx sy ex ey :
  drawSide sx sy ex ey undefined = drawSide sx sy ex ey (Side SOCKET).
Proof. reflexivity. Qed.

(** A rectangle that contains a path contains it when enlarged. *)
Lemma pathWithin_mono a b c d a' b' c' d' ops :
  a' <= a -> b <= b' -> c' <= c -> d <= d' ->
  forall cx cy,
    pathWithin a b c d cx cy ops -> pathWithin a' b' c' d' cx cy ops.
Proof.
  intros Ha Hb Hc Hd.
  assert (Hbox : forall x y, inBox a b c d x y -> inBox a' b' c' d' x y).
  { unfold inBox. intros x y. lra. }
  induction ops as [|op ops IH]; intros cx cy; [trivial|].
  destruct op as [| | | |c1x c1y c2x c2y x y| | | | | | | |];
    cbn [pathWithin]; try apply IH.
  - intros [H1 H2]. split; [now apply Hbox|now apply IH].
  - intros [H1 H2]. split; [intros t Ht; now apply Hbox, H1|now apply IH].
  - destruct c1x, c1y, c2x, c2y; try contradiction.
    intros [H1 H2]. split; [intros t Ht; now apply Hbox, H1|now apply IH].
Qed.

(** A Bezier curve stays between bounds that hold of its four points. *)
Lemma bezier_hull lo hi p0 p1 p2 p3 t :
  0 <= t <= 1 ->
  lo <= p0 <= hi -> lo <= p1 <= hi -> lo <= p2 <= hi -> lo <= p3 <= hi ->
  lo <= bezierAt p0 p1 p2 p3 t <= hi.
Proof.
  intros Ht H0 H1 H2 H3. unfold bezierAt.
  assert (B0 : 0 <= (1 - t) ^ 3) by (apply pow_le; lra).
  assert (B1 : 0 <= 3 * (1 - t) ^ 2 * t).
  { assert (0 <= (1 - t) ^ 2) by (apply pow_le; lra). nra. }
  assert (B2 : 0 <= 3 * (1 - t) * t ^ 2).
  { assert (0 <= t ^ 2) by (apply pow_le; lra). nra. }
  assert (B3 : 0 <= t ^ 3) by (apply pow_le; lra).
  assert (BS : (1 - t) ^ 3 + 3 * (1 - t) ^ 2 * t + 3 * (1 - t) * t ^ 2 + t ^ 3 = 1)
    by ring.
  set (b0 := (1 - t) ^ 3) in *. set (b1 := 3 * (1 - t) ^ 2 * t) in *.
  set (b2 := 3 * (1 - t) * t ^ 2) in *. set (b3 := t ^ 3) in *.
  split; nra.
Qed.

(** A curve whose end points coincide in one coordinate, and whose control
    points are both moved by [c] from them, moves by [3 * t * (1 - t) * c],
    which is at most three quarters of [c]. *)
Lemma bezier_bump p0 p1 p2 p3 c t :
  p1 = p0 + c -> p2 = p0 + c -> p3 = p0 ->
  bezierAt p0 p1 p2 p3 t = p0 + 3 * t * (1 - t) * c.
Proof. intros -> -> ->. unfold bezierAt. ring. Qed.

Lemma bump_range t : 0 <= t <= 1 -> 0 <= 3 * t * (1 - t) <= 3 / 4.
Proof.
  intros Ht. pose proof (Rle_0_sqr (t - 1 / 2)) as Hs. unfold Rsqr in Hs.
  split; nra.
Qed.

Lemma bezier_bump_bounds p0 p1 p2 p3 D t :
  0 <= t <= 1 ->
  p3 = p0 -> p2 = p1 -> - D <= p1 - p0 <= D ->
  p0 - 0.75 * D <= bezierAt p0 p1 p2 p3 t <= p0 + 0.75 * D.
Proof.
  intros Ht H3 H2 HD.
  rewrite (@bezier_bump p0 p1 p2 p3 (p1 - p0) t) by lra.
  pose proof (bump_range Ht) as Hu.
  set (u := 3 * t * (1 - t)) in *. split; nra.
Qed.

(** Each side of a square piece of side [pw], whatever its shape, is drawn
    within 0.15 times [pw] of the piece, in the translated frame of the
    outline. *)
Lemma side_within pw sx sy ex ey s rest :
  0 < pw ->
  (sx = 0 /\ sy = 0 /\ ex = pw /\ ey = 0) \/
  (sx = pw /\ sy = 0 /\ ex = pw /\ ey = pw) \/
  (sx = pw /\ sy = pw /\ ex = 0 /\ ey = pw) \/
  (sx = 0 /\ sy = pw /\ ex = 0 /\ ey = 0) ->
  pathWithin (- (0.15 * pw)) (1.15 * pw) (- (0.15 * pw)) (1.15 * pw)
    ex ey rest ->
  pathWithin (- (0.15 * pw)) (1.15 * pw) (- (0.15 * pw)) (1.15 * pw)
    sx sy (drawSide sx sy ex ey s ++ rest).
Proof.
  intros Hpw Hside Hrest.
  assert (Hne : (sx, sy) <> (ex, ey)).
  { intros [= H1 H2].
    destruct Hside as [(?&?&?&?)|[(?&?&?&?)|[(?&?&?&?)|(?&?&?&?)]]]; lra. }
  assert (Hflat : pathWithin (- (0.15 * pw)) (1.15 * pw) (- (0.15 * pw)) (1.15 * pw)
                    sx sy (lineTo ex ey :: rest)).
  { cbn [pathWithin]. split; [|exact Hrest].
    intros t Ht. unfold inBox.
    destruct Hside as [(?&?&?&?)|[(?&?&?&?)|[(?&?&?&?)|(?&?&?&?)]]];
      subst; split; nra. }
  assert (Hjoint : forall j,
            pathWithin (- (0.15 * pw)) (1.15 * pw) (- (0.15 * pw)) (1.15 * pw)
              sx sy (drawSide sx sy ex ey (Side j) ++ rest)).
  { intros j. rewrite (drawSide_joint j Hne). cbv zeta.
    cbn [app pathWithin]. unfold KNOB_RATIO.
    destruct Hside as [(-> & -> & -> & ->)|[(-> & -> & -> & ->)|
                       [(-> & -> & -> & ->)|(-> & -> & -> & ->)]]];
      destruct j;
      (split; [intros t Ht; unfold inBox; split; nra|]);
      (split;
       [intros t Ht; unfold inBox; split;
        match goal with
        | |- _ <= bezierAt ?a ?b ?c ?d t <= _ =>
          first
            [ pose proof (@bezier_hull 0 pw a b c d t Ht
                            ltac:(lra) ltac:(lra) ltac:(lra) ltac:(lra)); lra
            | pose proof (@bezier_bump_bounds a b c d (0.2 * pw) t Ht
                            ltac:(lra) ltac:(lra) ltac:(lra)); lra ]
        end|]);
      (split; [intros t Ht; unfold inBox; split; nra|exact Hrest]). }
  destruct s as [j| |].
  - apply Hjoint.
  - exact Hflat.
  - rewrite drawSide_undefined. apply Hjoint.
Qed.

(** X7. For a square piece of side at least 20 (and below 2^31 once
    padded), every point of the outline that [createPieceCanvas] draws
    (the segments and the curves of all four sides, whatever their
    shapes), once moved by the translation of the context, lies inside the
    canvas, whose width and height have lost their fractions: the padding
    leaves room for every knob. *)
Theorem knobs_fit_square_piece sx sy pw ph shape :
  20 <= pw -> ph = pw -> pw * (1 + 2 * KNOB_RATIO) < 2147483648 ->
  let c := paintPiece sx sy pw ph shape in
  let padX := pw * KNOB_RATIO in
  let padY := ph * KNOB_RATIO in
  pathWithin (0 - padX) (width c - padX) (0 - padY) (height c - padY)
    0 0 (outline pw ph shape).
Proof.
  intros Hpw -> Hrange c padX padY. unfold c, padX, padY, paintPiece.
  cbn [width height].
  assert (Hin : 0 <= pw + 2 * (pw * KNOB_RATIO) < 2147483648)
    by (unfold KNOB_RATIO in *; lra).
  rewrite !unsignedLong_in_range by exact Hin.
  pose proof (Int_part_bounds (pw + 2 * (pw * KNOB_RATIO))) as [Hlo _].
  apply (@pathWithin_mono (- (0.15 * pw)) (1.15 * pw) (- (0.15 * pw)) (1.15 * pw));
    try (unfold KNOB_RATIO in *; lra).
  assert (H0 : 0 < pw) by lra.
  unfold outline. cbn [app pathWithin].
  split; [unfold inBox; lra|].
  rewrite <- (app_nil_r (drawSide 0 pw 0 0 (left shape))).
  apply side_within; [exact H0|left; repeat split|].
  apply side_within; [exact H0|right; left; repeat split|].
  apply side_within; [exact H0|right; right; left; repeat split|].
  apply side_within; [exact H0|right; right; right; repeat split|].
  exact I.
Qed.

(** X8. The curve of a KNOB rises above its side by three quarters of
    [KNOB_RATIO] times the length of the side, whereas the padding above
    the piece is [KNOB_RATIO] times its height.  So the top side of a piece
    with a KNOB is drawn between the top edge of the canvas and the top
    edge of the piece, over the width of the piece, exactly when 3 times
    the width is at most 4 times the height. *)
Theorem top_knob_fits_iff pw ph :
  0 < pw -> 0 < ph ->
  let padY := ph * KNOB_RATIO in
  pathWithin 0 pw (0 - padY) 0 0 0 (drawSide 0 0 pw 0 (Side KNOB))
  <-> 3 * pw <= 4 * ph.
Proof.
  intros Hpw Hph padY. unfold padY.
  assert (Hne : (0, 0) <> (pw, 0)) by (intros [= H]; lra).
  rewrite (drawSide_joint KNOB Hne). cbv zeta. cbn [pathWithin].
  unfold KNOB_RATIO. split.
  - intros (_ & Hcurve & _).
    assert (Hhalf : 0 <= 1 / 2 <= 1) by lra.
    destruct (Hcurve (1 / 2) Hhalf) as [_ [Hy _]].
    rewrite (@bezier_bump _ _ _ _ (- (0.2 * pw)) (1 / 2)) in Hy by lra.
    lra.
  - intros Hle.
    split; [intros t Ht; unfold inBox; split; nra|].
    split; [|split; [intros t Ht; unfold inBox; split; nra|exact I]].
    intros t Ht. unfold inBox. split.
    + match goal with
      | |- _ <= bezierAt ?a ?b ?c ?d t <= _ =>
        pose proof (@bezier_hull 0 pw a b c d t Ht
                      ltac:(lra) ltac:(lra) ltac:(lra) ltac:(lra)); lra
      end.
    + rewrite (@bezier_bump _ _ _ _ (- (0.2 * pw)) t) by lra.
      pose proof (bump_range Ht) as Hu.
      set (u := 3 * t * (1 - t)) in *. split; nra.
Qed.

End KnobRoom.

(** ** Sizes of the pieces *)

Lemma span_last_column total N : 0 < N -> span (total / N) (total mod N) (N - 1) = total / N.
Proof.
  intros HN. unfold span.
  pose proof (Nat.mod_upper_bound total N ltac:(lia)).
  destruct (Nat.ltb_spec (N - 1) (total mod N)); lia.
Qed.

Lemma div_pos_iff total N : 0 < N -> (0 < total / N <-> N <= total).
Proof.
  intros HN. split.
  - intros Hq. pose proof (Nat.Div0.mul_div_le total N). nia.
  - intros Hle. apply Nat.div_str_pos. lia.
Qed.

(** X9. In a run that rasterizes all the pieces of a grid of side
    [N >= 1], every piece has a positive width and a positive height if and
    only if the image is at least [N] pixels wide and [N] pixels high. *)
Theorem pieces_nonempty_iff env imageBase64 pieceCount img N :
  decode env ("data:image/png;base64," ++ imageBase64) = Some img ->
  Math_sqrt pieceCount = Some N ->
  1 <= N ->
  (forall k, k < N * N -> getContext env k = Context2D) ->
  let calls := rasterCalls (snd (createJigsawPieces env imageBase64 pieceCount)) in
  (forall k c, nth_error calls k = Some c -> 0 < pieceWidth c /\ 0 < pieceHeight c)
  <-> (N <= img_width img /\ N <= img_height img).
Proof.
  intros Hd Hs HN Hctx calls.
  destruct (run_success env imageBase64 pieceCount Hd Hs (all_contexts env Hctx))
    as (_ & Hc & _).
  fold calls in Hc. unfold runCalls in Hc.
  split.
  - intros Hall.
    assert (Hcorner : nth_error calls ((N - 1) * N + (N - 1)) =
                      Some (cellCall (fst (jointsOf env N)) (snd (jointsOf env N))
                              (img_width img) (img_height img) N (N - 1) (N - 1))).
    { rewrite Hc. apply allCalls_nth; lia. }
    destruct (Hall _ _ Hcorner) as [Hw Hh]. cbn [cellCall pieceWidth pieceHeight] in Hw, Hh.
    rewrite span_last_column in Hw, Hh by lia.
    split; apply div_pos_iff with (N := N); assumption || lia.
  - intros [HW HH] k c Hk.
    destruct (run_call_any env imageBase64 pieceCount k Hd Hs Hk)
      as (y & x & _ & _ & _ & ->).
    cbn [cellCall pieceWidth pieceHeight]. unfold span.
    pose proof (proj2 (@div_pos_iff (img_width img) N ltac:(lia)) HW).
    pose proof (proj2 (@div_pos_iff (img_height img) N ltac:(lia)) HH).
    split; lia.
Qed.

(** X10. The pieces of a run are balanced: the widths of any two calls
    differ by at most one pixel, and so do their heights; along a row the
    widths never increase, and down a column the heights never increase. *)
Theorem pieces_balanced env imageBase64 pieceCount img N :
  decode env ("data:image/png;base64," ++ imageBase64) = Some img ->
  Math_sqrt pieceCount = Some N ->
  let calls := rasterCalls (snd (createJigsawPieces env imageBase64 pieceCount)) in
  (forall k k' c c', nth_error calls k = Some c -> nth_error calls k' = Some c' ->
     pieceWidth c <= pieceWidth c' + 1 /\ pieceHeight c <= pieceHeight c' + 1) /\
  (forall y x x' c c', y < N -> x <= x' -> x' < N ->
     nth_error calls (y * N + x) = Some c -> nth_error calls (y * N + x') = Some c' ->
     pieceWidth c' <= pieceWidth c) /\
  (forall y y' x c c', y <= y' -> y' < N -> x < N ->
     nth_error calls (y * N + x) = Some c -> nth_error calls (y' * N + x) = Some c' ->
     pieceHeight c' <= pieceHeight c).
Proof.
  intros Hd Hs calls. split; [|split].
  - intros k k' c c' Hk Hk'.
    destruct (run_call_any env imageBase64 pieceCount k Hd Hs Hk)
      as (y & x & _ & _ & _ & ->).
    destruct (run_call_any env imageBase64 pieceCount k' Hd Hs Hk')
      as (y' & x' & _ & _ & _ & ->).
    cbn [cellCall pieceWidth pieceHeight]. unfold span.
    destruct (x <? img_width img mod N); destruct (x' <? img_width img mod N);
    destruct (y <? img_height img mod N); destruct (y' <? img_height img mod N);
    split; lia.
  - intros y x x' c c' Hy Hxx Hx' Hc Hc'.
    assert (Hx : x < N) by lia.
    rewrite (run_call_at env imageBase64 pieceCount Hd Hs Hy Hx Hc).
    rewrite (run_call_at env imageBase64 pieceCount Hd Hs Hy Hx' Hc').
    cbn [cellCall pieceWidth]. unfold span.
    destruct (Nat.ltb_spec x (img_width img mod N));
    destruct (Nat.ltb_spec x' (img_width img mod N)); lia.
  - intros y y' x c c' Hyy Hy' Hx Hc Hc'.
    assert (Hy : y < N) by lia.
    rewrite (run_call_at env imageBase64 pieceCount Hd Hs Hy Hx Hc).
    rewrite (run_call_at env imageBase64 pieceCount Hd Hs Hy' Hx Hc').
    cbn [cellCall pieceHeight]. unfold span.
    destruct (Nat.ltb_spec y (img_height img mod N));
    destruct (Nat.ltb_spec y' (img_height img mod N)); lia.
Qed.

(** ** Numbering of the pieces, in general *)

Lemma initialPiecesFrom_maps images : forall index,
  map id (initialPiecesFrom index images) = seq index (length images) /\
  map originalIndex (initialPiecesFrom index images) = seq index (length images) /\
  map imageUrl (initialPiecesFrom index images) = images.
Proof.
  induction images as [|u images IH]; intros index; simpl.
  - repeat split.
  - destruct (IH (S index)) as (H1 & H2 & H3). rewrite H1, H2, H3. repeat split.
Qed.

(** X11. The pieces made in [PuzzleBoard] from the sliced images keep the
    images in order, one piece per image, and number them 0, 1, 2, ...:
    [id] and [originalIndex] are both the index of the image, so the ids
    (used as React keys) are pairwise distinct. *)
Theorem initialPieces_numbering slicedImages :
  length (initialPieces slicedImages) = length slicedImages /\
  map imageUrl (initialPieces slicedImages) = slicedImages /\
  map id (initialPieces slicedImages) = seq 0 (length slicedImages) /\
  map originalIndex (initialPieces slicedImages) = seq 0 (length slicedImages) /\
  NoDup (map id (initialPieces slicedImages)).
Proof.
  destruct (initialPiecesFrom_maps slicedImages 0) as (H1 & H2 & H3).
  unfold initialPieces. repeat split; try assumption.
  - rewrite <- (length_map imageUrl). now rewrite H3.
  - rewrite H1. apply seq_NoDup.
Qed.

(** * Properties of the rest of the application *)

(** ** The menu *)

(** X12. Every entry of the menu of piece counts is the square of a grid
    side [N] between 2 and 9, its label names that side and that count, and
    [createJigsawPieces] called with its value on an image that decodes,
    with a context for each of the canvases, resolves with exactly that many
    images: no entry of the menu is refused by the validation. *)
Theorem menu_options_work env imageBase64 img o :
  In o pieceOptions ->
  decode env ("data:image/png;base64," ++ imageBase64) = Some img ->
  (forall k, k < Z.to_nat (value o) -> getContext env k = Context2D) ->
  exists N images,
    2 <= N <= 9 /\ value o = Z.of_nat (N * N) /\ label o = labelFor N /\
    fst (createJigsawPieces env imageBase64 (value o)) = Resolved images /\
    length images = N * N.
Proof.
  intros Hin Hd Hctx.
  assert (Hgen : forall N, Math_sqrt (value o) = Some N ->
            Z.to_nat (value o) = N * N ->
            exists images,
              fst (createJigsawPieces env imageBase64 (value o)) = Resolved images /\
              length images = N * N).
  { intros N Hs HN. rewrite HN in Hctx.
    destruct (run_success env imageBase64 (value o) Hd Hs (all_contexts env Hctx))
      as (Hr & _).
    eexists. split; [exact Hr|]. unfold runCalls.
    now rewrite length_map, allCalls_length. }
  simpl in Hin.
  destruct Hin as [<-|[<-|[<-|[<-|[<-|[<-|[<-|[<-|[]]]]]]]]].
  - destruct (Hgen 2 eq_refl eq_refl) as (images & H1 & H2).
    exists 2, images. repeat split; try assumption; lia.
  - destruct (Hgen 3 eq_refl eq_refl) as (images & H1 & H2).
    exists 3, images. repeat split; try assumption; lia.
  - destruct (Hgen 4 eq_refl eq_refl) as (images & H1 & H2).
    exists 4, images. repeat split; try assumption; lia.
  - destruct (Hgen 5 eq_refl eq_refl) as (images & H1 & H2).
    exists 5, images. repeat split; try assumption; lia.
  - destruct (Hgen 6 eq_refl eq_refl) as (images & H1 & H2).
    exists 6, images. repeat split; try assumption; lia.
  - destruct (Hgen 7 eq_refl eq_refl) as (images & H1 & H2).
    exists 7, images. repeat split; try assumption; lia.
  - destruct (Hgen 8 eq_refl eq_refl) as (images & H1 & H2).
    exists 8, images. repeat split; try assumption; lia.
  - destruct (Hgen 9 eq_refl eq_refl) as (images & H1 & H2).
    exists 9, images. repeat split; try assumption; lia.
Qed.

(** ** The image service *)

Lemma prefix_app (s t : string) : String.prefix s (s ++ t) = true.
Proof.
  induction s as [|a s IH]; simpl.
  - now destruct t.
  - destruct (Ascii.ascii_dec a a) as [_|Hne]; [exact IH|contradiction].
Qed.

Lemma attempt_returned ai prompt bytes :
  Gemini.attempt ai prompt = Gemini.Returned bytes <->
  exists response first others im,
    Gemini.generateImages ai
      (Gemini.mkRequest "imagen-3.0-generate-002"
         ("A beautiful, vibrant, high-detail image of: " ++ prompt)
         (Gemini.mkConfig 1 "image/png" "1:1")) = Gemini.Returned response /\
    Gemini.generatedImages response = Some (first :: others) /\
    Gemini.image first = Some im /\
    Gemini.imageBytes im = Some bytes /\ bytes <> "".
Proof.
  unfold Gemini.attempt. split.
  - destruct (Gemini.generateImages ai _) as [response|t]; [|discriminate].
    destruct (Gemini.generatedImages response) as [[|first others]|] eqn:Eg;
      try discriminate.
    destruct (Gemini.image first) as [im|] eqn:Ei; [|discriminate].
    destruct (Gemini.imageBytes im) as [b|] eqn:Eb; [|discriminate].
    destruct (String.eqb_spec b "") as [->|Hne]; [discriminate|].
    intros [= <-]. exists response, first, others, im. repeat split; assumption.
  - intros (response & first & others & im & -> & -> & -> & -> & Hne).
    destruct (String.eqb_spec bytes "") as [->|_]; [contradiction|reflexivity].
Qed.

Lemma generateImage_returned ai prompt bytes :
  Gemini.generateImage ai prompt = Gemini.Returned bytes <->
  Gemini.attempt ai prompt = Gemini.Returned bytes.
Proof.
  unfold Gemini.generateImage.
  destruct (Gemini.attempt ai prompt) as [b|[m|]]; split; congruence.
Qed.

Lemma generateImage_threw ai prompt t :
  Gemini.generateImage ai prompt = Gemini.Threw t ->
  exists m, t = Gemini.ErrorObject m /\ serviceMessage m.
Proof.
  unfold Gemini.generateImage.
  destruct (Gemini.attempt ai prompt) as [b|[m|]]; intros [= <-].
  - eexists. split; [reflexivity|]. left.
    exact (prefix_app "Failed to generate image: " m).
  - eexists. split; [reflexivity|]. right. reflexivity.
Qed.

(** X13. [generateImage] returns a string exactly when the service answers
    the request (fixed model, one PNG image of aspect ratio 1:1, the prompt
    after the fixed introduction) with a list whose first image has
    non-empty bytes; the string returned is those bytes, so it is never
    empty. *)
Theorem generateImage_success_iff ai prompt bytes :
  Gemini.generateImage ai prompt = Gemini.Returned bytes <->
  exists response first others im,
    Gemini.generateImages ai
      (Gemini.mkRequest "imagen-3.0-generate-002"
         ("A beautiful, vibrant, high-detail image of: " ++ prompt)
         (Gemini.mkConfig 1 "image/png" "1:1")) = Gemini.Returned response /\
    Gemini.generatedImages response = Some (first :: others) /\
    Gemini.image first = Some im /\
    Gemini.imageBytes im = Some bytes /\ bytes <> "".
Proof.
  rewrite generateImage_returned. apply attempt_returned.
Qed.

(** X14. Whatever goes wrong, [generateImage] throws an [Error] object,
    whose message either starts with "Failed to generate image: " or is "An
    unknown error occurred during image generation.".  In particular the
    error raised in the [try] block when the service returns no image is
    caught by the [catch] of the same function and wrapped like an error of
    the service. *)
Theorem generateImage_failures ai prompt :
  (forall t, Gemini.generateImage ai prompt = Gemini.Threw t ->
     exists m, t = Gemini.ErrorObject m /\
       (String.prefix "Failed to generate image: " m = true \/
        m = "An unknown error occurred during image generation.")) /\
  (forall response,
     Gemini.generateImages ai
       (Gemini.mkRequest "imagen-3.0-generate-002"
          ("A beautiful, vibrant, high-detail image of: " ++ prompt)
          (Gemini.mkConfig 1 "image/png" "1:1")) = Gemini.Returned response ->
     (Gemini.generatedImages response = None \/ Gemini.generatedImages response = Some []) ->
     Gemini.generateImage ai prompt =
     Gemini.Threw (Gemini.ErrorObject
       "Failed to generate image: Image generation failed, no images were returned by the API.")) /\
  (forall m,
     Gemini.generateImages ai
       (Gemini.mkRequest "imagen-3.0-generate-002"
          ("A beautiful, vibrant, high-detail image of: " ++ prompt)
          (Gemini.mkConfig 1 "image/png" "1:1")) = Gemini.Threw (Gemini.ErrorObject m) ->
     Gemini.generateImage ai prompt =
     Gemini.Threw (Gemini.ErrorObject ("Failed to generate image: " ++ m))).
Proof.
  split; [|split].
  - intros t Ht. exact (generateImage_threw ai prompt Ht).
  - intros response Hr Hg. unfold Gemini.generateImage, Gemini.attempt. rewrite Hr.
    destruct Hg as [-> | ->]; reflexivity.
  - intros m Hr. unfold Gemini.generateImage, Gemini.attempt. now rewrite Hr.
Qed.

(** ** The application state *)

Lemma handleSubmit_Some nonBlank g prompt pieceCount req :
  App.handleSubmit nonBlank g prompt pieceCount = Some req ->
  nonBlank = true /\ g = false.
Proof.
  unfold App.handleSubmit. destruct nonBlank, g; simpl; intros H; try discriminate.
  split; reflexivity.
Qed.

Lemma awaiting_generating ai st req :
  appInvariant ai (App.mkRunning st (Some req)) ->
  App.gameState st = App.generating /\ App.error st = None /\
  App.puzzleData st = None /\
  exists o, snd req = value o /\ In o pieceOptions.
Proof.
  unfold appInvariant. cbn.
  destruct (App.gameState st).
  - intros (_ & _ & H). discriminate H.
  - intros (He & Hp & p & o & [= ->] & Ho). repeat split; try assumption.
    exists o. split; [reflexivity|exact Ho].
  - intros (_ & H & _). discriminate H.
  - intros (_ & H & _). discriminate H.
Qed.

Lemma step_preserves ai r r' :
  appInvariant ai r -> App.step ai r r' -> appInvariant ai r'.
Proof.
  intros Hinv Hstep.
  destruct Hstep as [st g nb p o c Ho Hview Hsub|st p c|st d Hview|st m Hview].
  - unfold appInvariant. cbn. repeat split.
    exists p, o. split; [reflexivity|exact Ho].
  - destruct (@awaiting_generating ai st (p, c) Hinv) as (_ & He & Hp & o & Hc & Ho).
    cbn in Hc. subst c.
    unfold appInvariant, App.handleGenerate_end.
    destruct (Gemini.generateImage ai p) as [b|t] eqn:Hg.
    + cbn. split; [exact He|]. split; [reflexivity|].
      eexists. split; [reflexivity|]. cbn. split; [exact Hg|].
      split; [|exists o; split; [reflexivity|exact Ho]].
      apply generateImage_returned in Hg. apply attempt_returned in Hg.
      destruct Hg as (? & ? & ? & ? & _ & _ & _ & _ & Hne). exact Hne.
    + destruct (generateImage_threw ai p Hg) as (m & -> & Hm). cbn.
      split; [exact Hp|]. split; [reflexivity|].
      exists m. split; [reflexivity|exact Hm].
  - unfold appInvariant. cbn. repeat split.
  - unfold appInvariant. cbn. repeat split.
Qed.

Lemma reachable_invariant ai r : App.reachable ai r -> appInvariant ai r.
Proof.
  induction 1 as [|r r' _ IH Hstep].
  - unfold appInvariant. cbn. repeat split.
  - exact (@step_preserves ai r r' IH Hstep).
Qed.

(** X15. In every state that the application reaches from its initial
    state by submitting the form, by the end of an image request and by the
    reset buttons: a request is awaited exactly in the state [generating];
    in the state [playing] there is puzzle data, whose image is the
    non-empty string that [generateImage] returned for its prompt and whose
    piece count is an entry of the menu, and no error; in the state
    [error'] there is an error message, which is one of
    the messages of [generateImage] (never the default "An unknown error
    occurred." of [handleGenerate]), and no puzzle data; so [renderContent]
    never takes its fallback branch. *)
Theorem app_states ai r :
  App.reachable ai r ->
  appInvariant ai r /\
  App.renderContent (App.state r) <> App.Fallback /\
  App.error (App.state r) <> Some "An unknown error occurred." /\
  (App.awaited r <> None <-> App.gameState (App.state r) = App.generating).
Proof.
  intros Hr. pose proof (@reachable_invariant ai r Hr) as Hinv.
  split; [exact Hinv|].
  unfold appInvariant in Hinv. cbv zeta in Hinv. unfold App.renderContent.
  destruct (App.gameState (App.state r)).
  - destruct Hinv as (He & Hp & Ha). rewrite He, Ha.
    repeat split; try discriminate. intros H. now contradiction H.
  - destruct Hinv as (He & Hp & p & o & Ha & _). rewrite He, Ha.
    repeat split; try discriminate.
  - destruct Hinv as (He & Ha & d & Hd & _). rewrite He, Ha, Hd.
    repeat split; try discriminate. intros H. now contradiction H.
  - destruct Hinv as (Hp & Ha & m & Hm & Hs). rewrite Ha, Hm.
    repeat split; try discriminate.
    + intros [= ->]. destruct Hs as [Hs|Hs]; discriminate Hs.
    + intros H. now contradiction H.
Qed.

(** ** The board *)

(** X16. When the slicing effect of [PuzzleBoard] has run, the slicing
    indicator is off and the piece count is unchanged, whatever the outcome.
    If the promise resolved, the pieces are replaced by [N * N] pieces
    numbered from 0 for a grid of [N] columns; if it was rejected, the
    pieces are left as they were (the error only goes to the console), so
    after a failure of the first slicing the component shows an empty grid
    and no spinner. *)
Theorem board_after_effect env imageBase64 st :
  let st' := Board.effect env imageBase64 st in
  Board.isSlicing st' = false /\
  Board.currentPieceCount st' = Board.currentPieceCount st /\
  Board.render st' <> Board.SpinnerView /\
  ((exists N,
      Math_sqrt (Board.currentPieceCount st) = Some N /\
      length (Board.pieces st') = N * N /\
      map id (Board.pieces st') = seq 0 (N * N) /\
      Board.render st' = Board.GridView (Some N) (Board.pieces st') false) \/
   (exists e,
      fst (createJigsawPieces env imageBase64 (Board.currentPieceCount st)) = Rejected e /\
      Board.pieces st' = Board.pieces st /\
      (st = Board.initial (Board.currentPieceCount st) ->
       Board.render st' =
       Board.GridView (Math_sqrt (Board.currentPieceCount st)) [] false))).
Proof.
  intros st'. subst st'. unfold Board.effect.
  pose proof (run_never_pending env imageBase64 (Board.currentPieceCount st)) as Hnp.
  destruct (fst (createJigsawPieces env imageBase64 (Board.currentPieceCount st)))
    as [images|e|] eqn:Hrun; [| |contradiction].
  - cbn [Board.isSlicing Board.currentPieceCount Board.pieces].
    split; [reflexivity|]. split; [reflexivity|].
    split; [unfold Board.render; cbn; discriminate|]. left.
    destruct (decode env ("data:image/png;base64," ++ imageBase64)) as [img|] eqn:Hd.
    2: { unfold createJigsawPieces in Hrun. rewrite Hd in Hrun. discriminate. }
    destruct (Math_sqrt (Board.currentPieceCount st)) as [N|] eqn:Hs.
    2: { unfold createJigsawPieces in Hrun. rewrite Hd in Hrun. unfold onload in Hrun.
         rewrite Hs in Hrun. discriminate. }
    exists N. split; [reflexivity|].
    assert (Hlen : length images = N * N).
    { destruct (firstFailure env 0 (N * N)) as [e|] eqn:HF.
      - rewrite (run_failure env imageBase64 _ Hd Hs HF) in Hrun. discriminate.
      - destruct (run_success env imageBase64 _ Hd Hs HF) as (Hr & _).
        rewrite Hr in Hrun. injection Hrun as <-. unfold runCalls.
        now rewrite length_map, allCalls_length. }
    destruct (initialPiecesFrom_maps images 0) as (H1 & _ & H3).
    fold (initialPieces images) in H1, H3.
    split; [rewrite <- (length_map imageUrl), H3; exact Hlen|].
    split; [rewrite H1, Hlen; reflexivity|].
    unfold Board.render. cbn. rewrite Hs. reflexivity.
  - cbn [Board.isSlicing Board.currentPieceCount Board.pieces].
    split; [reflexivity|]. split; [reflexivity|].
    split; [unfold Board.render; cbn; discriminate|]. right.
    exists e. split; [reflexivity|]. split; [reflexivity|].
    intros ->. reflexivity.
Qed.

(** ** The piece image in its grid cell *)

Section Alignment.
Local Open Scope R_scope.

(** X17. The style of [PuzzlePiece] puts the core of a piece image on its
    grid cell when the padded width and height of the piece are integers
    (below 2^31), as when its width and height are multiples of 5, so that
    the canvas keeps them.  For such a piece of positive width [pw] and
    height [ph], the canvas made by [createPieceCanvas] has its core
    between the abscissas [pw * KNOB_RATIO] (the translation of the
    context) and [pw * KNOB_RATIO + pw]; shown in a container [cellW] wide
    with the width and left offset of [imageStyle], these two abscissas
    fall on the left edge (0) and on the right edge ([cellW]) of the
    container, and the same holds vertically. *)
Theorem core_fills_cell sx sy pw ph shape cellW cellH (zw zh : Z) :
  0 < pw -> 0 < ph ->
  pw * (1 + 2 * KNOB_RATIO) = IZR zw -> pw * (1 + 2 * KNOB_RATIO) < 2147483648 ->
  ph * (1 + 2 * KNOB_RATIO) = IZR zh -> ph * (1 + 2 * KNOB_RATIO) < 2147483648 ->
  let c := paintPiece sx sy pw ph shape in
  let st := PuzzlePiece.imageStyle in
  shownAt cellW (PuzzlePiece.left st) (PuzzlePiece.width st) (width c)
    (pw * KNOB_RATIO) = 0 /\
  shownAt cellW (PuzzlePiece.left st) (PuzzlePiece.width st) (width c)
    (pw * KNOB_RATIO + pw) = cellW /\
  shownAt cellH (PuzzlePiece.top st) (PuzzlePiece.height st) (height c)
    (ph * KNOB_RATIO) = 0 /\
  shownAt cellH (PuzzlePiece.top st) (PuzzlePiece.height st) (height c)
    (ph * KNOB_RATIO + ph) = cellH.
Proof.
  intros Hpw Hph Zw Rw Zh Rh c st.
  unfold c, st, shownAt, paintPiece, PuzzlePiece.imageStyle.
  cbn [width height PuzzlePiece.left PuzzlePiece.width PuzzlePiece.top
       PuzzlePiece.height].
  assert (EW : pw + 2 * (pw * KNOB_RATIO) = pw * (1 + 2 * KNOB_RATIO)) by ring.
  assert (EH : ph + 2 * (ph * KNOB_RATIO) = ph * (1 + 2 * KNOB_RATIO)) by ring.
  rewrite (@unsignedLong_integer 300 _ zw)
    by (rewrite ?EW; try assumption; unfold KNOB_RATIO in *; lra).
  rewrite (@unsignedLong_integer 150 _ zh)
    by (rewrite ?EH; try assumption; unfold KNOB_RATIO in *; lra).
  unfold PuzzlePiece.KNOB_RATIO, KNOB_RATIO.
  repeat split; field; lra.
Qed.

End Alignment.

(** ** The application and its board together *)

Lemma menu_sqrt o :
  In o pieceOptions -> exists N, 2 <= N <= 9 /\ Math_sqrt (value o) = Some N.
Proof.
  simpl. intros [<-|[<-|[<-|[<-|[<-|[<-|[<-|[<-|[]]]]]]]]].
  - exists 2. split; [lia|reflexivity].
  - exists 3. split; [lia|reflexivity].
  - exists 4. split; [lia|reflexivity].
  - exists 5. split; [lia|reflexivity].
  - exists 6. split; [lia|reflexivity].
  - exists 7. split; [lia|reflexivity].
  - exists 8. split; [lia|reflexivity].
  - exists 9. split; [lia|reflexivity].
Qed.

Lemma resolved_length env imageBase64 pieceCount N images :
  Math_sqrt pieceCount = Some N ->
  fst (createJigsawPieces env imageBase64 pieceCount) = Resolved images ->
  length images = N * N.
Proof.
  intros Hs Hrun.
  destruct (decode env ("data:image/png;base64," ++ imageBase64)) as [img|] eqn:Hd.
  2: { unfold createJigsawPieces in Hrun. rewrite Hd in Hrun. discriminate. }
  destruct (firstFailure env 0 (N * N)) as [e|] eqn:HF.
  - rewrite (run_failure env imageBase64 _ Hd Hs HF) in Hrun. discriminate.
  - destruct (run_success env imageBase64 _ Hd Hs HF) as (Hr & _).
    rewrite Hr in Hrun. injection Hrun as <-. unfold runCalls.
    now rewrite length_map, allCalls_length.
Qed.

Lemma board_reachable_invariant env imageBase64 o st :
  In o pieceOptions ->
  Board.reachable env imageBase64 (value o) st -> boardInvariant st.
Proof.
  intros Ho. induction 1 as [|st _ IH|st o' _ IH Hs Ho' Hne].
  - unfold boardInvariant. cbn. split; [now exists o|]. split; [reflexivity|now left].
  - destruct IH as ((o1 & Hc & Ho1) & Hids & Hlen).
    unfold boardInvariant, Board.effect.
    destruct (fst (createJigsawPieces env imageBase64 (Board.currentPieceCount st)))
      as [images|e|] eqn:Hrun; cbn [Board.currentPieceCount Board.pieces].
    + split; [now exists o1|].
      destruct (initialPiecesFrom_maps images 0) as (H1 & _ & H3).
      fold (initialPieces images) in H1, H3.
      assert (HL : length (initialPieces images) = length images)
        by (rewrite <- (length_map imageUrl), H3; reflexivity).
      split; [now rewrite H1, HL|]. right.
      destruct (menu_sqrt Ho1) as (M & HM & Hsq). rewrite <- Hc in Hsq.
      exists M. split; [exact HM|]. rewrite HL.
      exact (resolved_length env imageBase64 _ Hsq Hrun).
    + split; [now exists o1|]. split; assumption.
    + split; [now exists o1|]. split; assumption.
  - destruct IH as (_ & Hids & Hlen).
    unfold boardInvariant. cbn. split; [now exists o'|]. split; assumption.
Qed.

(** X18. In the running application the validation of the piece count can
    never fail.  When the application shows the board for some puzzle data,
    then in every state that the board reaches (first render, end of a
    slicing, choice of an entry of the menu) the current piece count is the
    square of a grid side between 2 and 9, so [createJigsawPieces] is only
    called with counts that its validation accepts, and with a non-empty
    image string; the pieces shown are numbered from 0 and are none or as
    many as an entry of the menu. *)
Theorem counts_always_valid ai r data env st :
  App.reachable ai r ->
  App.renderContent (App.state r) = App.BoardView data ->
  Board.reachable env (App.imageBase64 data) (App.pieceCount data) st ->
  (exists N, 2 <= N <= 9 /\ Math_sqrt (Board.currentPieceCount st) = Some N) /\
  App.imageBase64 data <> "" /\
  map id (Board.pieces st) = seq 0 (length (Board.pieces st)) /\
  (Board.pieces st = [] \/ exists M, 2 <= M <= 9 /\ length (Board.pieces st) = M * M).
Proof.
  intros Hr Hview Hb.
  pose proof (@reachable_invariant ai r Hr) as Hinv.
  unfold appInvariant in Hinv. cbv zeta in Hinv.
  unfold App.renderContent in Hview.
  destruct (App.gameState (App.state r)); try discriminate Hview.
  destruct Hinv as (_ & _ & d & Hd & _ & Hne & o & Hc & Ho).
  rewrite Hd in Hview. injection Hview as ->.
  rewrite Hc in Hb.
  destruct (board_reachable_invariant Ho Hb) as ((o1 & Hc1 & Ho1) & Hids & Hlen).
  split.
  - destruct (menu_sqrt Ho1) as (N & HN & Hsq). exists N. rewrite Hc1. now split.
  - repeat split; assumption.
Qed.

(** * Instances of the further properties *)

Lemma sample_run_calls W H :
  rasterCalls (snd (createJigsawPieces (sampleBrowser W H) "" 4)) =
  runCalls (sampleBrowser W H) (mkImage W H) 2.
Proof.
  assert (Hs : Math_sqrt 4 = Some 2) by reflexivity.
  exact (proj1 (proj2 (@run_success (sampleBrowser W H) "" 4 (mkImage W H) 2
                         eq_refl Hs eq_refl))).
Qed.

Lemma sample_call W H y x :
  y < 2 -> x < 2 ->
  nth_error (rasterCalls (snd (createJigsawPieces (sampleBrowser W H) "" 4))) (y * 2 + x) =
  Some (cellCall (fst (jointsOf (sampleBrowser W H) 2)) (snd (jointsOf (sampleBrowser W H) 2))
          W H 2 y x).
Proof.
  intros Hy Hx. rewrite sample_run_calls. unfold runCalls. cbn [img_width img_height].
  now apply allCalls_nth.
Qed.

Lemma createJigsawPieces_settles_witness :
  (16 < 2 ^ 52)%Z /\
  ((exists pieces,
      fst (createJigsawPieces (sampleBrowser 800 800) "" 16) = Resolved pieces)
   \/ (exists e,
         fst (createJigsawPieces (sampleBrowser 800 800) "" 16) = Rejected e)).
Proof.
  assert (H : (16 < 2 ^ 52)%Z) by reflexivity.
  split; [exact H|].
  exact (@createJigsawPieces_settles (sampleBrowser 800 800) "" 16 H).
Defined.

Lemma joints_from_draws_witness :
  (joint [[KNOB]; [SOCKET]] 1 0 = KNOB <->
   (1 # 2 < Math_random (sampleBrowser 1 1) (0 + (1 * (2 - 1) + 0)))%Q).
Proof.
  exact (proj1 (proj2 (@joints_from_draws (sampleBrowser 1 1) 2 newWorld
                         [[KNOB]; [SOCKET]] [[KNOB; SOCKET]] (mkWorld 4 0 []) eq_refl))
           1 0 ltac:(lia) ltac:(lia)).
Defined.

Lemma failing_run_rejected :
  fst (createJigsawPieces (failingBrowser 8 8) "" 4) =
  Rejected "Could not get canvas context.".
Proof.
  assert (Hs : Math_sqrt 4 = Some 2) by reflexivity.
  exact (@run_failure (failingBrowser 8 8) "" 4 (mkImage 8 8) 2 eq_refl Hs
           "Could not get canvas context." eq_refl).
Qed.

Lemma stops_at_first_failure_witness :
  exists k,
    k < 2 * 2 /\
    canvasesCreated (snd (createJigsawPieces (failingBrowser 8 8) "" 4)) = S k /\
    surfaceError (getContext (failingBrowser 8 8) k) = Some "Could not get canvas context.".
Proof.
  destruct (proj2 (stops_at_first_failure (failingBrowser 8 8) "" 4)
              (mkImage 8 8) 2 "Could not get canvas context."
              eq_refl eq_refl failing_run_rejected) as (k & H1 & H2 & H3 & _).
  exists k. repeat split; assumption.
Defined.

Lemma vertical_edge_shared_witness :
  exists a b,
    nth_error (rasterCalls (snd (createJigsawPieces (sampleBrowser 8 8) "" 4))) (0 * 2 + 0)
      = Some a /\
    nth_error (rasterCalls (snd (createJigsawPieces (sampleBrowser 8 8) "" 4)))
      (0 * 2 + (0 + 1)) = Some b /\
    0 < pieceHeight a /\
    sourceX b = sourceX a + pieceWidth a.
Proof.
  do 2 eexists.
  split; [exact (@sample_call 8 8 0 0 ltac:(lia) ltac:(lia))|].
  split; [exact (@sample_call 8 8 0 1 ltac:(lia) ltac:(lia))|].
  split; [cbn; lia|].
  refine (proj1 (@vertical_edge_shared (sampleBrowser 8 8) "" 4 (mkImage 8 8) 2 0 0 _ _
                   eq_refl eq_refl ltac:(lia) ltac:(lia)
                   (@sample_call 8 8 0 0 ltac:(lia) ltac:(lia))
                   (@sample_call 8 8 0 1 ltac:(lia) ltac:(lia)) _)).
  cbn. lia.
Defined.

Lemma horizontal_edge_shared_witness :
  exists a b,
    nth_error (rasterCalls (snd (createJigsawPieces (sampleBrowser 8 8) "" 4))) (0 * 2 + 0)
      = Some a /\
    nth_error (rasterCalls (snd (createJigsawPieces (sampleBrowser 8 8) "" 4)))
      ((0 + 1) * 2 + 0) = Some b /\
    0 < pieceWidth a /\
    sourceY b = sourceY a + pieceHeight a.
Proof.
  do 2 eexists.
  split; [exact (@sample_call 8 8 0 0 ltac:(lia) ltac:(lia))|].
  split; [exact (@sample_call 8 8 1 0 ltac:(lia) ltac:(lia))|].
  split; [cbn; lia|].
  refine (proj1 (@horizontal_edge_shared (sampleBrowser 8 8) "" 4 (mkImage 8 8) 2 0 0 _ _
                   eq_refl eq_refl ltac:(lia) ltac:(lia)
                   (@sample_call 8 8 0 0 ltac:(lia) ltac:(lia))
                   (@sample_call 8 8 1 0 ltac:(lia) ltac:(lia)) _)).
  cbn. lia.
Defined.

Lemma pieces_nonempty_iff_witness :
  3 <= 802 /\
  forall k c,
    nth_error (rasterCalls (snd (createJigsawPieces (sampleBrowser 802 802) "" 9))) k = Some c ->
    0 < pieceWidth c /\ 0 < pieceHeight c.
Proof.
  split; [lia|].
  apply (proj2 (@pieces_nonempty_iff (sampleBrowser 802 802) "" 9 (mkImage 802 802) 3
                  eq_refl eq_refl ltac:(lia) (fun _ _ => eq_refl))).
  cbn [img_width img_height]. split; lia.
Defined.

Lemma pieces_balanced_witness :
  exists c c',
    nth_error (rasterCalls (snd (createJigsawPieces (sampleBrowser 9 9) "" 4))) (0 * 2 + 0)
      = Some c /\
    nth_error (rasterCalls (snd (createJigsawPieces (sampleBrowser 9 9) "" 4))) (0 * 2 + 1)
      = Some c' /\
    pieceWidth c <= pieceWidth c' + 1 /\ pieceHeight c <= pieceHeight c' + 1.
Proof.
  do 2 eexists.
  split; [exact (@sample_call 9 9 0 0 ltac:(lia) ltac:(lia))|].
  split; [exact (@sample_call 9 9 0 1 ltac:(lia) ltac:(lia))|].
  exact (proj1 (@pieces_balanced (sampleBrowser 9 9) "" 4 (mkImage 9 9) 2
                  eq_refl eq_refl) _ _ _ _
           (@sample_call 9 9 0 0 ltac:(lia) ltac:(lia))
           (@sample_call 9 9 0 1 ltac:(lia) ltac:(lia))).
Defined.

Lemma menu_options_work_witness :
  In (mkOption 16 "4x4 (16 Pieces)") pieceOptions /\
  exists N images,
    2 <= N <= 9 /\
    fst (createJigsawPieces (sampleBrowser 800 800) "" 16) = Resolved images /\
    length images = N * N.
Proof.
  assert (Hin : In (mkOption 16 "4x4 (16 Pieces)") pieceOptions)
    by (simpl; tauto).
  split; [exact Hin|].
  destruct (@menu_options_work (sampleBrowser 800 800) "" (mkImage 800 800)
              (mkOption 16 "4x4 (16 Pieces)") Hin eq_refl (fun _ _ => eq_refl))
    as (N & images & HN & _ & _ & Hr & Hl).
  exists N, images. repeat split; assumption || lia.
Defined.

Lemma generateImage_failures_witness :
  Gemini.generateImage emptyClient "a cat" =
  Gemini.Threw (Gemini.ErrorObject
    "Failed to generate image: Image generation failed, no images were returned by the API.").
Proof.
  exact (proj1 (proj2 (generateImage_failures emptyClient "a cat"))
           (Gemini.mkResponse (Some [])) eq_refl (or_intror eq_refl)).
Defined.

(** The application after a successful generation with [sampleClient]. *)
Lemma sample_app_reachable :
  App.reachable sampleClient
    (App.mkRunning
       (App.mkState App.playing None (Some (App.mkPuzzleData "iVBOR" 16 "a cat")))
       None).
Proof.
  eapply App.reachable_step.
  - eapply App.reachable_step.
    + apply App.reachable_initial.
    + apply (@App.step_submit sampleClient App.initial false true "a cat"
               (mkOption 16 "4x4 (16 Pieces)")).
      * simpl. tauto.
      * reflexivity.
      * reflexivity.
  - apply (@App.step_settle sampleClient (App.handleGenerate_begin App.initial) "a cat" 16).
Qed.

Lemma app_states_witness :
  App.reachable sampleClient
    (App.mkRunning
       (App.mkState App.playing None (Some (App.mkPuzzleData "iVBOR" 16 "a cat")))
       None) /\
  App.renderContent
    (App.mkState App.playing None (Some (App.mkPuzzleData "iVBOR" 16 "a cat")))
  <> App.Fallback.
Proof.
  split; [exact sample_app_reachable|].
  exact (proj1 (proj2 (@app_states sampleClient _ sample_app_reachable))).
Defined.

Lemma counts_always_valid_witness :
  exists N,
    2 <= N <= 9 /\
    Math_sqrt (Board.currentPieceCount
                 (Board.effect (sampleBrowser 800 800) "iVBOR" (Board.initial 16))) = Some N.
Proof.
  exact (proj1 (@counts_always_valid sampleClient _
                  (App.mkPuzzleData "iVBOR" 16 "a cat") (sampleBrowser 800 800)
                  (Board.effect (sampleBrowser 800 800) "iVBOR" (Board.initial 16))
                  sample_app_reachable eq_refl
                  (Board.reachable_effect (Board.reachable_initial _ _ _)))).
Defined.

Section RasterizerInstances2.
Local Open Scope R_scope.

Lemma knobs_fit_square_piece_witness :
  20 <= 267 /\ 267 * (1 + 2 * KNOB_RATIO) < 2147483648 /\
  pathWithin (0 - 267 * KNOB_RATIO)
    (width (paintPiece 0 0 267 267 (mkPieceShape FLAT (Side KNOB) (Side SOCKET) FLAT))
     - 267 * KNOB_RATIO)
    (0 - 267 * KNOB_RATIO)
    (height (paintPiece 0 0 267 267 (mkPieceShape FLAT (Side KNOB) (Side SOCKET) FLAT))
     - 267 * KNOB_RATIO)
    0 0 (outline 267 267 (mkPieceShape FLAT (Side KNOB) (Side SOCKET) FLAT)).
Proof.
  assert (H : 20 <= 267) by lra.
  assert (Hr : 267 * (1 + 2 * KNOB_RATIO) < 2147483648) by (unfold KNOB_RATIO; lra).
  split; [exact H|]. split; [exact Hr|].
  exact (@knobs_fit_square_piece 0 0 267 267
           (mkPieceShape FLAT (Side KNOB) (Side SOCKET) FLAT) H eq_refl Hr).
Defined.

Lemma top_knob_fits_iff_witness :
  0 < 400 /\ 0 < 200 /\
  ~ pathWithin 0 400 (0 - 200 * KNOB_RATIO) 0 0 0 (drawSide 0 0 400 0 (Side KNOB)).
Proof.
  assert (H1 : 0 < 400) by lra. assert (H2 : 0 < 200) by lra.
  split; [exact H1|]. split; [exact H2|].
  intros HF.
  apply (proj1 (@top_knob_fits_iff 400 200 H1 H2)) in HF.
  lra.
Defined.

Lemma core_fills_cell_witness :
  0 < 200 /\
  200 * (1 + 2 * KNOB_RATIO) = IZR 280 /\
  200 * (1 + 2 * KNOB_RATIO) < 2147483648 /\
  shownAt 100 (PuzzlePiece.left PuzzlePiece.imageStyle)
    (PuzzlePiece.width PuzzlePiece.imageStyle)
    (width (paintPiece 0 0 200 200 (mkPieceShape FLAT FLAT FLAT FLAT)))
    (200 * KNOB_RATIO + 200) = 100.
Proof.
  assert (H : 0 < 200) by lra.
  assert (Z200 : 200 * (1 + 2 * KNOB_RATIO) = IZR 280) by (unfold KNOB_RATIO; lra).
  assert (R200 : 200 * (1 + 2 * KNOB_RATIO) < 2147483648) by (unfold KNOB_RATIO; lra).
  split; [exact H|]. split; [exact Z200|]. split; [exact R200|].
  exact (proj1 (proj2 (@core_fills_cell 0 0 200 200 (mkPieceShape FLAT FLAT FLAT FLAT)
                         100 100 280 280 H H Z200 R200 Z200 R200))).
Defined.

End RasterizerInstances2.
